(** * Keycloak SSO with PKCE: the authentication session engine

    A shallow embedding of [src/services/authService.ts], of the effect of
    [src/components/Callback.tsx] and of [generateCodeVerifier] from
    [src/utils/pkce.ts] (as listed in KEYCLOAK_SSO_REACT_GUIDE.md).

    Asynchronous methods are terms of a free monad [Task]: synchronous
    operations on the browser ([sessionStorage], [window.location],
    [Date.now], [console]) are [Sync] nodes, and every [await fetch(...)] is an
    [Await] node, the only place where an [async] function is suspended.
    Two interpreters are given: [run] executes one task to completion
    against a network, and [start]/[deliver] execute tasks up to their next
    suspension, so that several invocations can be interleaved. *)

From Stdlib Require Import ZArith Ascii String List Lia.
From Stdlib.Strings Require Import Byte.
From Stdlib Require Import DecimalString DecimalPos.
From Stdlib Require HexadecimalString.
From stdpp Require Import base option gmap strings list fin_maps.

Local Open Scope string_scope.
Local Open Scope Z_scope.

(** ** JavaScript values used by the service *)

(** The outcome of a promise: fulfilled with a value or rejected with an
    [Error], which the model identifies with its message. *)
Inductive Result (A : Type) : Type :=
| Ok (a : A)
| Err (message : string).
Arguments Ok {A} a.
Arguments Err {A} message.

(** Truthiness of a [string | null] (or [string | undefined]) value: [null]
    and the empty string are falsy. *)
Definition truthy (v : option string) : bool :=
  match v with
  | Some s => negb (String.eqb s "")
  | None => false
  end.

(** [a || b] on a possibly absent string and a string. *)
Definition or_else (v : option string) (d : string) : string :=
  match v with
  | Some s => if String.eqb s "" then d else s
  | None => d
  end.

(** [URLSearchParams.get]: the first value under the name, or [null]. *)
Fixpoint get (params : list (string * string)) (name : string) : option string :=
  match params with
  | [] => None
  | (k, v) :: rest => if String.eqb k name then Some v else get rest name
  end.

Module Number.

(** [Number.prototype.toString] on an integer. The model's numbers are the
    integers a double represents exactly, as instants in milliseconds are;
    JavaScript prints those with all their digits. *)
Definition toString (z : Z) : string :=
  NilZero.string_of_int (Z.to_int z).

Definition is_space (c : ascii) : bool :=
  let n := nat_of_ascii c in
  ((9 <=? n) && (n <=? 13))%nat || (n =? 32)%nat.

Fixpoint trim_start (s : string) : string :=
  match s with
  | String c rest => if is_space c then trim_start rest else s
  | EmptyString => s
  end.

(** The value of a character as a digit of the radix, if it is one. *)
Definition digit_value (radix : Z) (c : ascii) : option Z :=
  let n := Z.of_nat (nat_of_ascii c) in
  let v :=
    if (48 <=? n) && (n <=? 57) then Some (n - 48)
    else if (97 <=? n) && (n <=? 122) then Some (n - 87)
    else if (65 <=? n) && (n <=? 90) then Some (n - 55)
    else None in
  match v with
  | Some d => if d <? radix then Some d else None
  | None => None
  end.

(** Reads the longest prefix of digits; [acc] is [None] until a digit has
    been read. *)
Fixpoint digits (radix : Z) (s : string) (acc : option Z) : option Z :=
  match s with
  | String c rest =>
      match digit_value radix c with
      | Some d =>
          digits radix rest
            (Some (match acc with Some a => a * radix + d | None => d end))
      | None => acc
      end
  | EmptyString => acc
  end.

(** The digits after the sign: a [0x] prefix selects radix 16, and the
    longest prefix of digits is read. *)
Definition magnitude (s : string) : option Z :=
  let '(radix, s) :=
    match s with
    | String "0" (String "x" rest) => (16, rest)
    | String "0" (String "X" rest) => (16, rest)
    | _ => (10, s)
    end in
  digits radix s None.

(** [parseInt(s)] without a radix: leading white space and a sign are
    skipped, and the result is [NaN] ([None]) when no digit follows. *)
Definition parseInt (s : string) : option Z :=
  match trim_start s with
  | String "-" rest => Z.opp <$> magnitude rest
  | String "+" rest => magnitude rest
  | s => magnitude s
  end.

(** [a > b] where [b] may be [NaN]: every comparison with [NaN] is false. *)
Definition gt (a : Z) (b : option Z) : bool :=
  match b with
  | Some b => b <? a
  | None => false
  end.

(** [n - k] where [n] may be [NaN]. *)
Definition minus (n : option Z) (k : Z) : option Z :=
  match n with
  | Some n => Some (n - k)
  | None => None
  end.

End Number.

(** ** PKCE parameters ([utils/pkce.ts]) *)

Module pkce.

Definition charset : string :=
  "ABCDEFGHIJKLMNOPQRSTUVWXYZabcdefghijklmnopqrstuvwxyz0123456789-._~".

(** [String.prototype.charAt]: the empty string outside the string. *)
Definition charAt (s : string) (i : nat) : string :=
  match String.get i s with
  | Some c => String c ""
  | None => ""
  end.

(** [generateCodeVerifier(length = 128)]. [crypto.getRandomValues] is the
    page's secure random source: given the size of the [Uint8Array] it
    either throws or fills the array, which is then read by index. *)
Definition generateCodeVerifier (getRandomValues : nat → Result (nat → byte))
    (length : option nat) : Result string :=
  let length := default 128%nat length in
  match getRandomValues length with
  | Err e => Err e
  | Ok randomValues =>
      Ok (fold_left
            (λ result i,
               result +:+ charAt charset (Byte.to_nat (randomValues i) mod String.length charset))
            (seq 0 length) "")
  end.

(** The unreserved characters of a URI: letters, digits and [-._~]. *)
Definition unreserved (c : ascii) : bool :=
  let n := nat_of_ascii c in
  (((65 <=? n) && (n <=? 90)) || ((97 <=? n) && (n <=? 122)) || ((48 <=? n) && (n <=? 57))
   || (n =? 45) || (n =? 46) || (n =? 95) || (n =? 126))%nat.

End pkce.

(** ** Data exchanged with the identity provider *)

(** [TokenResponse], with the [id_token] that [storeTokens] looks for. *)
Record TokenResponse : Type := {
  access_token : string;
  refresh_token : string;
  expires_in : Z;
  token_type : string;
  scope : string;
  id_token : option string
}.

Record UserInfo : Type := {
  sub : string;
  email : string;
  email_verified : bool;
  name : string;
  preferred_username : string;
  given_name : option string;
  family_name : option string
}.

Record AuthError : Type := {
  error : string;
  error_description : option string;
  error_uri : option string
}.

(** The arguments of one [fetch]: the body is kept as the list of form
    fields given to [URLSearchParams]. *)
Record Request : Type := {
  url : string;
  method : string;
  headers : list (string * string);
  form : list (string * string)
}.

(** A [Response]. The body is typed by the interface the code reads it at:
    a success response ([response.ok]) carries the outcome of
    [response.json()] at the declared interface, a non-success response
    carries it as error data ([Err] when [json()] rejects). *)
Inductive Response (A : Type) : Type :=
| RespOk (statusText : string) (json : Result A)
| RespFail (statusText : string) (json : Result AuthError).
Arguments RespOk {A} statusText json.
Arguments RespFail {A} statusText json.

Definition ok {A} (response : Response A) : bool :=
  match response with
  | RespOk _ _ => true
  | RespFail _ _ => false
  end.

Definition statusText {A} (response : Response A) : string :=
  match response with
  | RespOk s _ | RespFail s _ => s
  end.

(** What [await fetch(...)] gives: the promise rejects when the request
    fails at the transport level, and resolves to a response otherwise. *)
Inductive FetchResult (A : Type) : Type :=
| Rejected (reason : string)
| Resolved (response : Response A).
Arguments Rejected {A} reason.
Arguments Resolved {A} response.

(** ** The browser *)

(** Output-only effects, recorded in order. *)
Inductive Event : Type :=
| ConsoleError (label detail : string)
| ConsoleWarn (label detail : string)
| LocationHref (target : string) (query : list (string * string))
| SetIsProcessing (b : bool)
| SetError (message : string)
| Navigate (path : string)
| NavigateAfter (ms : Z) (path : string).

Record World : Type := {
  sessionStorage : gmap string string;
  search : list (string * string);
  origin : string;
  now : Z;
  requests : list Request;
  events : list Event
}.

Definition with_storage (f : gmap string string → gmap string string) (w : World) : World :=
  {| sessionStorage := f (sessionStorage w); search := search w; origin := origin w;
     now := now w; requests := requests w; events := events w |}.

Definition with_search (q : list (string * string)) (w : World) : World :=
  {| sessionStorage := sessionStorage w; search := q; origin := origin w;
     now := now w; requests := requests w; events := events w |}.

Definition with_now (t : Z) (w : World) : World :=
  {| sessionStorage := sessionStorage w; search := search w; origin := origin w;
     now := t; requests := requests w; events := events w |}.

Definition issue (req : Request) (w : World) : World :=
  {| sessionStorage := sessionStorage w; search := search w; origin := origin w;
     now := now w; requests := requests w ++ [req]; events := events w |}.

Definition emit (ev : Event) (w : World) : World :=
  {| sessionStorage := sessionStorage w; search := search w; origin := origin w;
     now := now w; requests := requests w; events := events w ++ [ev] |}.

(** Synchronous operations, indexed by the type of their result. *)
Inductive op : Type → Type :=
| GetItem (key : string) : op (option string)
| SetItem (key value : string) : op unit
| RemoveItem (key : string) : op unit
| DateNow : op Z
| LocationSearch : op (list (string * string))
| LocationOrigin : op string
| ReplaceState : op unit
| Emit (ev : Event) : op unit.

(** Network calls; the constructor fixes the interface the body is read at. *)
Inductive call : Type → Type :=
| FetchToken (req : Request) : call (FetchResult TokenResponse)
| FetchUserInfo (req : Request) : call (FetchResult UserInfo)
| FetchRevoke (req : Request) : call (FetchResult unit).

Definition request_of {X} (c : call X) : Request :=
  match c with
  | FetchToken req | FetchUserInfo req | FetchRevoke req => req
  end.

(** [ReplaceState] is [history.replaceState({}, title, location.pathname)]:
    the query string is dropped from the location. *)
Definition exec {X} (o : op X) (w : World) : World * X :=
  match o in op X return World * X with
  | GetItem key => (w, sessionStorage w !! key)
  | SetItem key value => (with_storage (insert key value) w, tt)
  | RemoveItem key => (with_storage (delete key) w, tt)
  | DateNow => (w, now w)
  | LocationSearch => (w, search w)
  | LocationOrigin => (w, origin w)
  | ReplaceState => (with_search [] w, tt)
  | Emit ev => (emit ev w, tt)
  end.

(** The identity provider and the transport, as seen from the page: the
    answer to a request may depend on everything requested so far, and a
    request takes some time. *)
Record Network : Type := {
  token_endpoint : list Request → Request → FetchResult TokenResponse;
  userinfo_endpoint : list Request → Request → FetchResult UserInfo;
  revoke_endpoint : list Request → Request → FetchResult unit;
  latency : list Request → Z
}.

Definition answer (net : Network) {X} (c : call X) (log : list Request) : X :=
  match c in call X return X with
  | FetchToken req => token_endpoint net log req
  | FetchUserInfo req => userinfo_endpoint net log req
  | FetchRevoke req => revoke_endpoint net log req
  end.

Definition tick (net : Network) (w : World) : World :=
  with_now (now w + latency net (requests w)) w.

(** ** Asynchronous code *)

(** The body of an [async] function: it returns, throws, performs a
    synchronous operation and goes on, or awaits a network call and goes
    on with its outcome. Awaiting another method of the service is [bind]:
    the callee runs inside the caller up to its own network call.

    The body of a response is delivered together with the response: between
    the resolution of [fetch] and that of [response.json()] the methods
    touch neither the store nor the network, so the two suspensions are
    taken as one. *)
Inductive Task (A : Type) : Type :=
| Ret (a : A)
| Throw (message : string)
| Sync {X : Type} (o : op X) (k : X → Task A)
| Await {X : Type} (c : call X) (k : X → Task A).
Arguments Ret {A} a.
Arguments Throw {A} message.
Arguments Sync {A X} o k.
Arguments Await {A X} c k.

Fixpoint bind {A B} (t : Task A) (f : A → Task B) : Task B :=
  match t with
  | Ret a => f a
  | Throw e => Throw e
  | Sync o k => Sync o (λ x, bind (k x) f)
  | Await c k => Await c (λ x, bind (k x) f)
  end.

#[global] Instance Task_ret : MRet Task := @Ret.
#[global] Instance Task_bind : MBind Task := λ A B f t, bind t f.

Definition perform {X} (o : op X) : Task X := Sync o Ret.
Definition fetch {X} (c : call X) : Task X := Await c Ret.

(** [await p] for the promise returned by [fetch]: a rejection is thrown. *)
Definition await {A} (r : FetchResult A) : Task (Response A) :=
  match r with
  | Rejected reason => Throw reason
  | Resolved response => Ret response
  end.

(** [await response.json()]. *)
Definition json {A} (j : Result A) : Task A :=
  match j with
  | Ok a => Ret a
  | Err reason => Throw reason
  end.

(** [try { t } catch (error) { handler error }]. *)
Fixpoint tryCatch {A} (t : Task A) (handler : string → Task A) : Task A :=
  match t with
  | Ret a => Ret a
  | Throw e => handler e
  | Sync o k => Sync o (λ x, tryCatch (k x) handler)
  | Await c k => Await c (λ x, tryCatch (k x) handler)
  end.

(** [try { t } finally { cleanup }]. *)
Fixpoint tryFinally {A} (t : Task A) (cleanup : Task unit) : Task A :=
  match t with
  | Ret a => bind cleanup (λ _, Ret a)
  | Throw e => bind cleanup (λ _, Throw e)
  | Sync o k => Sync o (λ x, tryFinally (k x) cleanup)
  | Await c k => Await c (λ x, tryFinally (k x) cleanup)
  end.

(** Runs a task to completion: each request is recorded when it is issued
    and answered by the network. *)
Fixpoint run (net : Network) {A} (t : Task A) (w : World) : World * Result A :=
  match t with
  | Ret a => (w, Ok a)
  | Throw e => (w, Err e)
  | Sync o k => let '(w', x) := exec o w in run net (k x) w'
  | Await c k =>
      let w' := issue (request_of c) w in
      run net (k (answer net c (requests w'))) (tick net w')
  end.

(** A started invocation: finished, or suspended at an [await] whose
    request has been issued. *)
Inductive Thread (A : Type) : Type :=
| Finished (r : Result A)
| Waiting {X : Type} (c : call X) (k : X → Task A).
Arguments Finished {A} r.
Arguments Waiting {A X} c k.

(** Runs the synchronous prefix of a task, up to its first [await]. *)
Fixpoint start {A} (t : Task A) (w : World) : World * Thread A :=
  match t with
  | Ret a => (w, Finished (Ok a))
  | Throw e => (w, Finished (Err e))
  | Sync o k => let '(w', x) := exec o w in start (k x) w'
  | Await c k => (issue (request_of c) w, Waiting c k)
  end.

(** Delivers the network's answer to a suspended invocation, which then
    runs up to its next [await]. *)
Definition deliver (net : Network) {A} (th : Thread A) (w : World) : World * Thread A :=
  match th with
  | Finished r => (w, Finished r)
  | Waiting c k => start (k (answer net c (requests w))) (tick net w)
  end.

(** The instants [Date.now] can return: the time values of a [Date], in
    milliseconds, all of them integers a double represents exactly. *)
Definition time_value (t : Z) : Prop :=
  -8640000000000000 ≤ t ≤ 8640000000000000.

(** ** [class AuthService] *)

(** A value in a template literal or where the type has been narrowed to
    [string]: the string itself, and ["null"] for [null]. *)
Definition text (v : option string) : string :=
  match v with
  | Some s => s
  | None => "null"
  end.

Record AuthService : Type := {
  keycloakUrl : string;
  realm : string;
  clientId : string;
  redirectUri : string
}.

(** The constructor, given [window.location.origin]. *)
Definition new_AuthService (origin : string) : AuthService :=
  {| keycloakUrl := "https://oneid.ticket-bangla.com";
     realm := "oneid";
     clientId := "react-client";
     redirectUri := origin +:+ "/callback" |}.

Definition endpoint (this : AuthService) (name : string) : string :=
  keycloakUrl this +:+ "/realms/" +:+ realm this +:+ "/protocol/openid-connect/" +:+ name.

(** The arguments of the form-encoded [POST] requests. *)
Definition post (url : string) (body : list (string * string)) : Request :=
  {| url := url;
     method := "POST";
     headers := [("Content-Type", "application/x-www-form-urlencoded")];
     form := body |}.

(** *** Token storage methods *)

Definition storeTokens (tokens : TokenResponse) : Task unit :=
  _ ← perform (SetItem "access_token" (access_token tokens));
  _ ← perform (SetItem "refresh_token" (refresh_token tokens));
  now ← perform DateNow;
  _ ← perform (SetItem "token_expires_at"
                 (Number.toString (now + expires_in tokens * 1000)));
  if truthy (id_token tokens)
  then perform (SetItem "id_token" (text (id_token tokens)))
  else Ret tt.

Definition getStoredAccessToken : Task (option string) :=
  perform (GetItem "access_token").

Definition getStoredRefreshToken : Task (option string) :=
  perform (GetItem "refresh_token").

Definition clearTokens : Task unit :=
  _ ← perform (RemoveItem "access_token");
  _ ← perform (RemoveItem "refresh_token");
  perform (RemoveItem "token_expires_at").

Definition isTokenExpired : Task bool :=
  expiresAt ← perform (GetItem "token_expires_at");
  if negb (truthy expiresAt) then Ret true
  else
    now ← perform DateNow;
    Ret (Number.gt now (Number.minus (Number.parseInt (text expiresAt)) 30000)).

(** The store after [storeTokens] at instant [now]. *)
Definition stored (tokens : TokenResponse) (now : Z) (m : gmap string string) :
    gmap string string :=
  let m' :=
    <["token_expires_at" := Number.toString (now + expires_in tokens * 1000)]>
      (<["refresh_token" := refresh_token tokens]>
         (<["access_token" := access_token tokens]> m)) in
  if truthy (id_token tokens) then <["id_token" := text (id_token tokens)]> m' else m'.

(** *** The protocol *)

Definition exchangeCodeForTokens (this : AuthService) (code : string) : Task TokenResponse :=
  codeVerifier ← perform (GetItem "code_verifier");
  if negb (truthy codeVerifier) then Throw "Code verifier not found"
  else
    let tokenUrl := endpoint this "token" in
    let body :=
      [("grant_type", "authorization_code");
       ("client_id", clientId this);
       ("code", code);
       ("redirect_uri", redirectUri this);
       ("code_verifier", text codeVerifier)] in
    tryCatch
      (response ← fetch (FetchToken (post tokenUrl body)) ≫= await;
       match response with
       | RespFail statusText errorData =>
           let description :=
             match errorData with
             | Ok data => error_description data
             | Err _ => None
             end in
           Throw ("Token exchange failed: " +:+ or_else description statusText)
       | RespOk _ body => json body
       end)
      (λ error,
         _ ← perform (Emit (ConsoleError "Token exchange error:" error));
         Throw "Failed to exchange authorization code for tokens").

Definition getUserInfo (this : AuthService) (accessToken : string) : Task UserInfo :=
  let userInfoUrl := endpoint this "userinfo" in
  tryCatch
    (response ← fetch (FetchUserInfo
         {| url := userInfoUrl; method := "GET";
            headers := [("Authorization", "Bearer " +:+ accessToken)]; form := [] |})
       ≫= await;
     match response with
     | RespFail statusText _ => Throw ("Failed to fetch user info: " +:+ statusText)
     | RespOk _ body => json body
     end)
    (λ error,
       _ ← perform (Emit (ConsoleError "User info error:" error));
       Throw "Failed to fetch user information").

Definition handleCallback (this : AuthService) : Task (TokenResponse * UserInfo) :=
  urlParams ← perform LocationSearch;
  let code := get urlParams "code" in
  let state := get urlParams "state" in
  let error := get urlParams "error" in
  if truthy error then
    let errorDescription := get urlParams "error_description" in
    Throw ("Authentication failed: " +:+ text error +:+
           (if truthy errorDescription then " - " +:+ text errorDescription else ""))
  else if negb (truthy code) || negb (truthy state) then
    Throw "Missing authorization code or state parameter"
  else
    storedState ← perform (GetItem "oauth_state");
    if bool_decide (storedState ≠ state) then
      Throw "Invalid state parameter - possible CSRF attack"
    else
      tokens ← exchangeCodeForTokens this (text code);
      userInfo ← getUserInfo this (access_token tokens);
      _ ← perform (RemoveItem "code_verifier");
      _ ← perform (RemoveItem "oauth_state");
      _ ← storeTokens tokens;
      _ ← perform ReplaceState;
      Ret (tokens, userInfo).

Definition refreshToken (this : AuthService) : Task TokenResponse :=
  refreshToken ← getStoredRefreshToken;
  if negb (truthy refreshToken) then Throw "No refresh token available"
  else
    let tokenUrl := endpoint this "token" in
    let body :=
      [("grant_type", "refresh_token");
       ("client_id", clientId this);
       ("refresh_token", text refreshToken)] in
    tryCatch
      (response ← fetch (FetchToken (post tokenUrl body)) ≫= await;
       match response with
       | RespFail _ _ =>
           _ ← clearTokens;
           Throw "Refresh token is invalid"
       | RespOk _ body =>
           tokens ← json body;
           _ ← storeTokens tokens;
           Ret tokens
       end)
      (λ error,
         _ ← perform (Emit (ConsoleError "Token refresh error:" error));
         Throw "Failed to refresh access token").

Definition logout (this : AuthService) : Task unit :=
  refreshToken ← getStoredRefreshToken;
  idToken ← perform (GetItem "id_token");
  _ ← (if truthy refreshToken then
         tryCatch
           (let revokeUrl := endpoint this "revoke" in
            _ ← fetch (FetchRevoke
                 (post revokeUrl
                    [("client_id", clientId this);
                     ("refresh_token", text refreshToken)]))
               ≫= await;
            Ret tt)
           (λ error, perform (Emit (ConsoleWarn "Failed to revoke refresh token:" error)))
       else Ret tt);
  _ ← clearTokens;
  let logoutUrl := endpoint this "logout" in
  let hint := if truthy idToken then [("id_token_hint", text idToken)] else [] in
  origin ← perform LocationOrigin;
  perform (Emit (LocationHref logoutUrl (hint ++ [("post_logout_redirect_uri", origin)]))).

Definition getCurrentUser (this : AuthService) : Task (option UserInfo) :=
  tryCatch
    (accessToken ← getStoredAccessToken;
     if negb (truthy accessToken) then Ret None
     else
       expired ← isTokenExpired;
       _ ← (if expired : bool then _ ← refreshToken this; Ret tt else Ret tt);
       newAccessToken ← getStoredAccessToken;
       if negb (truthy newAccessToken) then Ret None
       else
         userInfo ← getUserInfo this (text newAccessToken);
         Ret (Some userInfo))
    (λ error,
       _ ← perform (Emit (ConsoleError "Failed to get current user:" error));
       Ret None).

(** The request [refreshToken] sends for the stored refresh token [rt]. *)
Definition refresh_request (this : AuthService) (rt : string) : Request :=
  post (endpoint this "token")
    [("grant_type", "refresh_token"); ("client_id", clientId this); ("refresh_token", rt)].

(** ** The [Callback] component *)

Module Callback.

(** The [async] function declared inside the effect. *)
Definition handleCallback (authService : AuthService) : Task unit :=
  tryFinally
    (tryCatch
       (_ ← perform (Emit (SetIsProcessing true));
        _ ← handleCallback authService;
        perform (Emit (Navigate "/dashboard")))
       (λ error,
          _ ← perform (Emit (SetError error));
          perform (Emit (NavigateAfter 3000 "/login"))))
    (perform (Emit (SetIsProcessing false))).

(** One mounted component: the page it lives in, its [hasRun] ref and the
    invocations it has started. *)
Record Page : Type := {
  world : World;
  hasRun : bool;
  pending : list (Thread unit)
}.

Definition mount (w : World) : Page :=
  {| world := w; hasRun := false; pending := [] |}.

(** The body of [useEffect]: the call is started and not awaited. *)
Definition effect (authService : AuthService) (p : Page) : Page :=
  if hasRun p then p
  else
    let '(w, th) := start (handleCallback authService) (world p) in
    {| world := w; hasRun := true; pending := pending p ++ [th] |}.

(** What the runtime may do next: run the effect (again), or let the
    network answer one suspended invocation. *)
Inductive Action : Type :=
| RunEffect
| Answer (i : nat).

Definition step (net : Network) (authService : AuthService) (p : Page) (a : Action) : Page :=
  match a with
  | RunEffect => effect authService p
  | Answer i =>
      match pending p !! i with
      | Some th =>
          let '(w, th') := deliver net th (world p) in
          {| world := w; hasRun := hasRun p; pending := <[i := th']> (pending p) |}
      | None => p
      end
  end.

Definition steps (net : Network) (authService : AuthService) (p : Page)
    (schedule : list Action) : Page :=
  fold_left (step net authService) schedule p.

End Callback.

(** The token-exchange requests among the requests issued so far: those
    that submit an authorization code. *)
Definition is_exchange (req : Request) : bool :=
  bool_decide (get (form req) "grant_type" = Some "authorization_code").

Definition exchanges (log : list Request) : nat :=
  length (List.filter is_exchange log).
Arguments exchanges : simpl never.

(** ** How many token exchanges a task can issue *)

(** [exchanges_at_most n t]: whatever the network answers, [t] issues at
    most [n] token-exchange requests. *)
Inductive exchanges_at_most {A : Type} : nat → Task A → Prop :=
| eam_Ret n a : exchanges_at_most n (Ret a)
| eam_Throw n e : exchanges_at_most n (Throw e)
| eam_Sync n X (o : op X) k :
    (∀ x, exchanges_at_most n (k x)) → exchanges_at_most n (Sync o k)
| eam_exchange n X (c : call X) k :
    is_exchange (request_of c) = true →
    (∀ x, exchanges_at_most n (k x)) → exchanges_at_most (S n) (Await c k)
| eam_other n X (c : call X) k :
    is_exchange (request_of c) = false →
    (∀ x, exchanges_at_most n (k x)) → exchanges_at_most n (Await c k).

(** The same bound for an invocation that has been started: its pending
    request is already counted. *)
Definition thread_at_most {A} (n : nat) (th : Thread A) : Prop :=
  match th with
  | Finished _ => True
  | Waiting c k => ∀ x, exchanges_at_most n (k x)
  end.

(** What holds at every moment of a [Callback] mounted in the page [w0]:
    before the effect has run nothing has been started; afterwards there is
    exactly one invocation, and what it has issued and may still issue
    amounts to one exchange. *)
Definition guarded (w0 : World) (p : Callback.Page) : Prop :=
  (Callback.hasRun p = false ∧ Callback.pending p = [] ∧
   exchanges (requests (Callback.world p)) = exchanges (requests w0))
  ∨
  (Callback.hasRun p = true ∧
   ∃ th n, Callback.pending p = [th] ∧ thread_at_most n th ∧
           (exchanges (requests (Callback.world p)) + n ≤ exchanges (requests w0) + 1)%nat).

(** ** A concrete page, used to exercise the code *)

Module Scenario.

Definition authService : AuthService := new_AuthService "https://app.example".

Definition tokens : TokenResponse :=
  {| access_token := "at-1"; refresh_token := "rt-1"; expires_in := 300;
     token_type := "Bearer"; scope := "openid email profile";
     id_token := Some "idtok123" |}.

Definition user : UserInfo :=
  {| sub := "u-1"; email := "ada@example.org"; email_verified := true;
     name := "Ada"; preferred_username := "ada";
     given_name := None; family_name := None |}.

(** A provider that accepts every request. *)
Definition accepting : Network :=
  {| token_endpoint := λ _ _, Resolved (RespOk "OK" (Ok tokens));
     userinfo_endpoint := λ _ _, Resolved (RespOk "OK" (Ok user));
     revoke_endpoint := λ _ _, Resolved (RespOk "OK" (Ok tt));
     latency := λ _, 20 |}.

(** A provider that refuses every token request and describes why. *)
Definition refusing : Network :=
  {| token_endpoint := λ _ _,
       Resolved (RespFail "Bad Request"
         (Ok {| error := "invalid_grant";
                error_description := Some "Code not valid";
                error_uri := None |}));
     userinfo_endpoint := λ _ _, Resolved (RespFail "Unauthorized" (Err "Unexpected end of JSON input"));
     revoke_endpoint := λ _ _, Resolved (RespOk "OK" (Ok tt));
     latency := λ _, 20 |}.

(** A network that is down. *)
Definition offline : Network :=
  {| token_endpoint := λ _ _, Rejected "Failed to fetch";
     userinfo_endpoint := λ _ _, Rejected "Failed to fetch";
     revoke_endpoint := λ _ _, Rejected "Failed to fetch";
     latency := λ _, 20 |}.

Definition page (storage : gmap string string) (query : list (string * string)) : World :=
  {| sessionStorage := storage; search := query; origin := "https://app.example";
     now := 1700000000000; requests := []; events := [] |}.

(** The page as the provider redirects back to it after a login. *)
Definition redirected : World :=
  page (<["oauth_state" := "xyz"]> (<["code_verifier" := "ver"]> ∅))
       [("code", "abc"); ("state", "xyz")].

(** A callback whose state is not the persisted one, with an error
    parameter. *)
Definition denied : World :=
  page (<["oauth_state" := "abc"]> (<["code_verifier" := "ver"]> ∅))
       [("error", "access_denied"); ("code", "abc"); ("state", "xyz")].

(** A callback whose state is not the persisted one. *)
Definition forged : World :=
  page (<["oauth_state" := "abc"]> (<["code_verifier" := "ver"]> ∅))
       [("code", "abc"); ("state", "xyz")].

(** The page of a logged-in user. *)
Definition logged_in : World :=
  page (<["id_token" := "idtok123"]>
          (<["token_expires_at" := "1700000300000"]>
             (<["refresh_token" := "rt-1"]> (<["access_token" := "at-1"]> ∅))))
       [].

End Scenario.

(** ** The rest of [utils/pkce.ts] *)

(** [Number.prototype.toString(16)] on a non-negative integer: lower-case
    hexadecimal digits. *)
Definition toString16 (n : N) : string :=
  HexadecimalString.NilZero.string_of_uint (N.to_hex_uint n).

(** [String.prototype.padStart] with a one-character filler. *)
Definition padStart (s : string) (targetLength : nat) (filler : ascii) : string :=
  string_of_list_ascii (repeat filler (targetLength - String.length s)) +:+ s.

(** [Array.prototype.join] with the empty separator. *)
Definition join (parts : list string) : string :=
  fold_right String.append "" parts.

(** [generateState()]: 32 random bytes, each printed as two hexadecimal
    digits. *)
Definition generateState (getRandomValues : nat → Result (nat → byte)) : Result string :=
  match getRandomValues 32%nat with
  | Err e => Err e
  | Ok array =>
      Ok (join (map (λ i, padStart (toString16 (Byte.to_N (array i))) 2 "0") (seq 0 32)))
  end.

(** The alphabet of [btoa]. *)
Definition base64 : string :=
  "ABCDEFGHIJKLMNOPQRSTUVWXYZabcdefghijklmnopqrstuvwxyz0123456789+/".

Definition base64_char (i : nat) : ascii :=
  match String.get i base64 with
  | Some c => c
  | None => "="%char
  end.

(** [btoa] on the character codes of a binary string: three bytes give four
    characters, and an incomplete last group is padded with [=]. *)
Fixpoint btoa_codes (codes : list nat) : string :=
  match codes with
  | [] => ""
  | [a] =>
      String (base64_char (a / 4))
        (String (base64_char (a mod 4 * 16)) "==")
  | [a; b] =>
      String (base64_char (a / 4))
        (String (base64_char (a mod 4 * 16 + b / 16))
           (String (base64_char (b mod 16 * 4)) "="))
  | a :: b :: c :: rest =>
      String (base64_char (a / 4))
        (String (base64_char (a mod 4 * 16 + b / 16))
           (String (base64_char (b mod 16 * 4 + c / 64))
              (String (base64_char (c mod 64)) (btoa_codes rest))))
  end%nat.

Definition btoa (s : string) : string :=
  btoa_codes (map nat_of_ascii (list_ascii_of_string s)).

(** [s.replace(/c/g, by)] for a single character [c]. *)
Fixpoint replaceAll (c : ascii) (by_ : string) (s : string) : string :=
  match s with
  | EmptyString => ""
  | String x rest =>
      (if Ascii.eqb x c then by_ else String x "") +:+ replaceAll c by_ rest
  end.

(** [generateCodeChallenge(codeVerifier)]. [digest] is
    [crypto.subtle.digest('SHA-256', _)] of the page: it rejects or delivers
    the bytes of the digest. The verifier is given to it as its UTF-8
    bytes, which for the characters of a verifier are its character
    codes. *)
Definition generateCodeChallenge (digest : list byte → Result (list byte))
    (codeVerifier : string) : Result string :=
  let data := list_byte_of_string codeVerifier in
  match digest data with
  | Err e => Err e
  | Ok digest =>
      Ok (replaceAll "=" ""
            (replaceAll "/" "_"
               (replaceAll "+" "-" (btoa (string_of_list_byte digest)))))
  end.

(** The length of unpadded base64: four characters for three bytes. *)
Definition base64_length (n : nat) : nat := ((4 * n + 2) / 3)%nat.

(** The characters of base64url. *)
Definition base64url_char (c : ascii) : bool :=
  let n := nat_of_ascii c in
  (((65 <=? n) && (n <=? 90)) || ((97 <=? n) && (n <=? 122)) || ((48 <=? n) && (n <=? 57))
   || (n =? 45) || (n =? 95))%nat.

Definition hex_char (c : ascii) : bool :=
  let n := nat_of_ascii c in
  (((48 <=? n) && (n <=? 57)) || ((97 <=? n) && (n <=? 102)))%nat.

(** ** The rest of [class AuthService] *)

(** The cryptography of the page, as the service uses it. *)
Record Crypto : Type := {
  getRandomValues : nat → Result (nat → byte);
  digest : list byte → Result (list byte)
}.

(** A value computed outside the store and the network, or the error it
    throws. *)
Definition settle {A} (r : Result A) : Task A :=
  match r with
  | Ok a => Ret a
  | Err e => Throw e
  end.

(** The query of the authorization request. *)
Definition authorization_query (this : AuthService) (state codeChallenge : string) :
    list (string * string) :=
  [("client_id", clientId this);
   ("response_type", "code");
   ("scope", "openid email profile");
   ("redirect_uri", redirectUri this);
   ("state", state);
   ("code_challenge", codeChallenge);
   ("code_challenge_method", "S256")].

(** [initiateLogin()]. The digest is awaited before the method has touched
    anything, so its outcome is taken from [crypto] like the random
    values. *)
Definition initiateLogin (crypto : Crypto) (this : AuthService) : Task unit :=
  tryCatch
    (codeVerifier ← settle (pkce.generateCodeVerifier (getRandomValues crypto) None);
     state ← settle (generateState (getRandomValues crypto));
     codeChallenge ← settle (generateCodeChallenge (digest crypto) codeVerifier);
     _ ← perform (SetItem "code_verifier" codeVerifier);
     _ ← perform (SetItem "oauth_state" state);
     let authUrl := endpoint this "auth" in
     let params := authorization_query this state codeChallenge in
     perform (Emit (LocationHref authUrl params)))
    (λ error,
       _ ← perform (Emit (ConsoleError "Failed to initiate login:" error));
       Throw "Failed to initiate authentication").

(** [validateToken()]; [!!userInfo.sub] is whether the subject is a
    non-empty string. *)
Definition validateToken (this : AuthService) : Task bool :=
  accessToken ← getStoredAccessToken;
  if negb (truthy accessToken) then Ret false
  else
    tryCatch
      (userInfo ← getUserInfo this (text accessToken);
       Ret (truthy (Some (sub userInfo))))
      (λ error,
         tryCatch
           (_ ← refreshToken this;
            Ret true)
           (λ refreshError,
              _ ← clearTokens;
              Ret false)).

(** The requests of the other endpoints. *)
Definition exchange_request (this : AuthService) (code codeVerifier : string) : Request :=
  post (endpoint this "token")
    [("grant_type", "authorization_code");
     ("client_id", clientId this);
     ("code", code);
     ("redirect_uri", redirectUri this);
     ("code_verifier", codeVerifier)].

Definition userinfo_request (this : AuthService) (accessToken : string) : Request :=
  {| url := endpoint this "userinfo"; method := "GET";
     headers := [("Authorization", "Bearer " +:+ accessToken)]; form := [] |}.

Definition revoke_request (this : AuthService) (refreshToken : string) : Request :=
  post (endpoint this "revoke")
    [("client_id", clientId this); ("refresh_token", refreshToken)].

(** ** [AuthProvider] ([contexts/AuthContext.tsx]) *)

Module AuthContext.

(** The three pieces of React state of the provider. *)
Record State : Type := {
  isAuthenticated : bool;
  isLoading : bool;
  user : option UserInfo
}.

(** The state on the first render. *)
Definition initial : State :=
  {| isAuthenticated := false; isLoading := true; user := None |}.

(** A function of the provider: it sets state, calls the service, and
    completes or throws; the state it has set survives a throw. *)
Definition Handler (A : Type) : Type := State → Task (State * Result A).

Definition ret {A} (a : A) : Handler A := λ st, Ret (st, Ok a).

Definition throw {A} (e : string) : Handler A := λ st, Ret (st, Err e).

Definition then_ {A B} (h : Handler A) (f : A → Handler B) : Handler B :=
  λ st,
    r ← h st;
    match r with
    | (st', Ok a) => f a st'
    | (st', Err e) => Ret (st', Err e)
    end.

(** [await] of a method of the service. *)
Definition call {A} (t : Task A) : Handler A :=
  λ st, tryCatch (a ← t; Ret (st, Ok a)) (λ e, Ret (st, Err e)).

Definition try_catch {A} (h : Handler A) (handler : string → Handler A) : Handler A :=
  λ st,
    r ← h st;
    match r with
    | (st', Ok a) => Ret (st', Ok a)
    | (st', Err e) => handler e st'
    end.

Definition try_finally {A} (h : Handler A) (cleanup : Handler unit) : Handler A :=
  λ st,
    r ← h st;
    match r with
    | (st', outcome) =>
        c ← cleanup st';
        match c with
        | (st'', Ok _) => Ret (st'', outcome)
        | (st'', Err e) => Ret (st'', Err e)
        end
    end.

Definition setIsAuthenticated (b : bool) : Handler unit :=
  λ st, Ret ({| isAuthenticated := b; isLoading := isLoading st; user := user st |}, Ok tt).

Definition setIsLoading (b : bool) : Handler unit :=
  λ st, Ret ({| isAuthenticated := isAuthenticated st; isLoading := b; user := user st |}, Ok tt).

Definition setUser (u : option UserInfo) : Handler unit :=
  λ st, Ret ({| isAuthenticated := isAuthenticated st; isLoading := isLoading st; user := u |}, Ok tt).

Definition console_error (label detail : string) : Handler unit :=
  call (perform (Emit (ConsoleError label detail))).

(** The function run by the effect on mount. *)
Definition checkAuthStatus (authService : AuthService) : Handler unit :=
  try_finally
    (try_catch
       (then_ (setIsLoading true) (λ _,
        then_ (call (validateToken authService)) (λ isValid,
        if isValid : bool then
          then_ (call (getCurrentUser authService)) (λ currentUser,
          then_ (setIsAuthenticated true) (λ _,
          setUser currentUser))
        else
          then_ (setIsAuthenticated false) (λ _,
          setUser None))))
       (λ error,
          then_ (console_error "Failed to check authentication status:" error) (λ _,
          then_ (setIsAuthenticated false) (λ _,
          setUser None))))
    (setIsLoading false).

Definition login (crypto : Crypto) (authService : AuthService) : Handler unit :=
  try_catch
    (call (initiateLogin crypto authService))
    (λ error,
       then_ (console_error "Login failed:" error) (λ _,
       throw error)).

Definition logout (authService : AuthService) : Handler unit :=
  try_catch
    (then_ (call (logout authService)) (λ _,
     then_ (setIsAuthenticated false) (λ _,
     setUser None)))
    (λ error,
       then_ (console_error "Logout failed:" error) (λ _,
       then_ (setIsAuthenticated false) (λ _,
       then_ (setUser None) (λ _,
       throw error)))).

Definition refreshUser (authService : AuthService) : Handler unit :=
  try_catch
    (then_ (call (getCurrentUser authService)) (λ currentUser,
     if bool_decide (is_Some currentUser) then
       then_ (setUser currentUser) (λ _,
       setIsAuthenticated true)
     else
       then_ (setUser None) (λ _,
       setIsAuthenticated false)))
    (λ error,
       then_ (console_error "Failed to refresh user:" error) (λ _,
       then_ (setUser None) (λ _,
       setIsAuthenticated false))).

End AuthContext.

(** The effect of [ProtectedRoute]: the login is started, not awaited, when
    the provider has finished loading without a session. *)
Definition ProtectedRoute_effect (crypto : Crypto) (authService : AuthService)
    (st : AuthContext.State) (w : World) : World * Thread (AuthContext.State * Result unit) :=
  if negb (AuthContext.isLoading st) && negb (AuthContext.isAuthenticated st)
  then start (AuthContext.login crypto authService st) w
  else (w, Finished (Ok (st, Ok tt))).

(** ** A visitor's page, used to exercise the code *)

Module Visit.

(** A random source that counts, and a digest that keeps the first 32
    bytes. *)
Definition crypto : Crypto :=
  {| getRandomValues := λ _, Ok (λ i, default Byte.x00 (Byte.of_nat (37 * i + 5)));
     digest := λ data, Ok (take 32 (data ++ repeat Byte.xfb 32)) |}.


Definition fresh : World := Scenario.page ∅ [].

End Visit.

(** ** The random source of a browser *)

(** [crypto.getRandomValues] on a [Uint8Array] of the given size: it
    refuses more than 65536 bytes at once with a [QuotaExceededError], and
    otherwise fills the array from the entropy of the platform. *)
Definition web_getRandomValues (entropy : nat → byte) (size : nat) : Result (nat → byte) :=
  if (65536 <? N.of_nat size)%N then Err "QuotaExceededError" else Ok entropy.

(** The 256 values of a byte. *)
Definition all_bytes : list byte :=
  map (λ n, default Byte.x00 (Byte.of_nat n)) (seq 0 256).

(** Whether a verifier was returned and is the one-character string [c]. *)
Definition is_character (c : ascii) (verifier : Result string) : bool :=
  match verifier with
  | Ok s => String.eqb s (String c "")
  | Err _ => false
  end.

(** A token set that lives ten seconds. *)
Definition short_lived : TokenResponse :=
  {| access_token := "at-2"; refresh_token := "rt-2"; expires_in := 10;
     token_type := "Bearer"; scope := "openid"; id_token := None |}.

(** * Properties *)

(** ** Numbers and strings *)

Example parseInt_decimal : Number.parseInt "1700000300000" = Some 1700000300000.
Proof. reflexivity. Qed.

Example parseInt_prefix : Number.parseInt "  -42px" = Some (-42).
Proof. reflexivity. Qed.

Example parseInt_hex : Number.parseInt "0x1F" = Some 31.
Proof. reflexivity. Qed.

Example parseInt_NaN : Number.parseInt "soon" = None.
Proof. reflexivity. Qed.

Example toString_instant : Number.toString 1700000300000 = "1700000300000".
Proof. reflexivity. Qed.

Example toString_negative : Number.toString (-15) = "-15".
Proof. reflexivity. Qed.


(** Reading back what [toString] prints. *)
Lemma digits_acc (d : Decimal.uint) (acc : positive) :
  Number.digits 10 (NilEmpty.string_of_uint d) (Some (Z.pos acc)) =
  Some (Z.pos (Pos.of_uint_acc d acc)).
Proof.
  revert acc; induction d; intros acc; cbn [NilEmpty.string_of_uint Number.digits Pos.of_uint_acc];
    [done | ..];
    match goal with
    | |- context [Number.digit_value 10 ?c] =>
        let v := eval vm_compute in (Number.digit_value 10 c) in
        change (Number.digit_value 10 c) with v
    end; cbv iota beta; rewrite <- IHd; do 2 f_equal; lia.
Qed.

Lemma digits_zero (d : Decimal.uint) :
  Number.digits 10 (NilEmpty.string_of_uint d) (Some 0) = Some (Z.of_N (Pos.of_uint d)).
Proof.
  induction d; cbn [NilEmpty.string_of_uint Number.digits Pos.of_uint]; [done | ..];
    match goal with
    | |- context [Number.digit_value 10 ?c] =>
        let v := eval vm_compute in (Number.digit_value 10 c) in
        change (Number.digit_value 10 c) with v
    end; cbv iota beta;
    first [exact IHd | apply (digits_acc d)].
Qed.

Lemma magnitude_uint (d : Decimal.uint) :
  d ≠ Decimal.Nil →
  Number.magnitude (NilEmpty.string_of_uint d) = Some (Z.of_N (Pos.of_uint d)).
Proof.
  intros Hd. rewrite <- digits_zero.
  destruct d as [|d|d|d|d|d|d|d|d|d|d]; [done | ..]; try reflexivity.
  destruct d; reflexivity.
Qed.

Lemma parseInt_minus (s : string) :
  Number.parseInt (String "-" s) = Z.opp <$> Number.magnitude s.
Proof. reflexivity. Qed.

Lemma parseInt_uint (d : Decimal.uint) :
  d ≠ Decimal.Nil →
  Number.parseInt (NilZero.string_of_uint d) = Some (Z.of_N (Pos.of_uint d)) ∧
  Number.parseInt (String "-" (NilZero.string_of_uint d)) = Some (- Z.of_N (Pos.of_uint d)).
Proof.
  intros Hd. pose proof (magnitude_uint d Hd) as Hm. rewrite parseInt_minus.
  destruct d; [done | ..]; (split; [exact Hm|]);
    unfold NilZero.string_of_uint; by rewrite Hm.
Qed.

Lemma parseInt_toString (z : Z) : Number.parseInt (Number.toString z) = Some z.
Proof.
  destruct z as [|p|p]; [reflexivity | ..];
    unfold Number.toString; cbn [Z.to_int NilZero.string_of_int];
    destruct (parseInt_uint (Pos.to_uint p) (Unsigned.to_uint_nonnil p)) as [Hpos Hneg];
    rewrite Unsigned.of_to in Hpos, Hneg; done.
Qed.

Lemma toString_nonempty (z : Z) : Number.toString z ≠ "".
Proof. intros H. pose proof (parseInt_toString z) as Hp. by rewrite H in Hp. Qed.

(** ** The two interpreters *)

Section Interpreters.

Context (net : Network).

Lemma run_bind {A B} (t : Task A) (f : A → Task B) (w : World) :
  run net (bind t f) w =
  match run net t w with
  | (w', Ok a) => run net (f a) w'
  | (w', Err e) => (w', Err e)
  end.
Proof.
  revert w; induction t as [a | e | X o k IH | X c k IH]; intros w; cbn; try done.
  destruct (exec o w) as [w' x]. apply IH.
Qed.

Lemma run_mbind {A B} (t : Task A) (f : A → Task B) (w : World) :
  run net (t ≫= f) w =
  match run net t w with
  | (w', Ok a) => run net (f a) w'
  | (w', Err e) => (w', Err e)
  end.
Proof. apply run_bind. Qed.

Lemma run_tryCatch {A} (t : Task A) (handler : string → Task A) (w : World) :
  run net (tryCatch t handler) w =
  match run net t w with
  | (w', Ok a) => (w', Ok a)
  | (w', Err e) => run net (handler e) w'
  end.
Proof.
  revert w; induction t as [a | e | X o k IH | X c k IH]; intros w; cbn; try done.
  destruct (exec o w) as [w' x]. apply IH.
Qed.

Lemma run_perform {X} (o : op X) (w : World) :
  run net (perform o) w = ((exec o w).1, Ok (exec o w).2).
Proof. unfold perform; cbn. by destruct (exec o w). Qed.

(** Running to completion is starting, then answering each request as soon
    as it has been issued. *)
Lemma run_start {A} (t : Task A) (w : World) :
  run net t w =
  match start t w with
  | (w', Finished r) => (w', r)
  | (w', Waiting c k) => run net (k (answer net c (requests w'))) (tick net w')
  end.
Proof.
  revert w; induction t as [a | e | X o k IH | X c k IH]; intros w; cbn; try done.
  destruct (exec o w) as [w' x]. apply IH.
Qed.

End Interpreters.

(** Synchronous operations issue no request. *)
Lemma exec_requests {X} (o : op X) (w : World) : requests (exec o w).1 = requests w.
Proof. by destruct o. Qed.

Lemma exchanges_snoc (log : list Request) (req : Request) :
  exchanges (log ++ [req]) =
  (exchanges log + if is_exchange req then 1 else 0)%nat.
Proof.
  unfold exchanges. rewrite List.filter_app, length_app; cbn.
  by destruct (is_exchange req).
Qed.

(** ** How many token exchanges a task can issue *)

Lemma exchanges_at_most_mono {A} (t : Task A) (n m : nat) :
  exchanges_at_most n t → (n ≤ m)%nat → exchanges_at_most m t.
Proof.
  intros H; revert m; induction H as [| | n X o k _ IH | n X c k Hc _ IH | n X c k Hc _ IH];
    intros m Hm; try by constructor.
  - constructor; intros x; by apply IH.
  - destruct m as [|m]; [lia|]. apply eam_exchange; [done|].
    intros x; apply IH; lia.
  - apply eam_other; [done|]. intros x; by apply IH.
Qed.

Lemma exchanges_at_most_bind {A B} (t : Task A) (f : A → Task B) (n m : nat) :
  exchanges_at_most n t → (∀ a, exchanges_at_most m (f a)) →
  exchanges_at_most (n + m) (bind t f).
Proof.
  intros H Hf; induction H as [n a | | n X o k _ IH | n X c k Hc _ IH | n X c k Hc _ IH]; cbn.
  - apply exchanges_at_most_mono with m; [done | lia].
  - constructor.
  - constructor; intros x; apply IH.
  - apply eam_exchange; [done|]. intros x; apply IH.
  - apply eam_other; [done|]. intros x; apply IH.
Qed.

Lemma exchanges_at_most_tryCatch {A} (t : Task A) (handler : string → Task A) (n m : nat) :
  exchanges_at_most n t → (∀ e, exchanges_at_most m (handler e)) →
  exchanges_at_most (n + m) (tryCatch t handler).
Proof.
  intros H Hh; induction H as [| n e | n X o k _ IH | n X c k Hc _ IH | n X c k Hc _ IH]; cbn.
  - constructor.
  - apply exchanges_at_most_mono with m; [done | lia].
  - constructor; intros x; apply IH.
  - apply eam_exchange; [done|]. intros x; apply IH.
  - apply eam_other; [done|]. intros x; apply IH.
Qed.

Lemma exchanges_at_most_tryFinally {A} (t : Task A) (cleanup : Task unit) (n m : nat) :
  exchanges_at_most n t → exchanges_at_most m cleanup →
  exchanges_at_most (n + m) (tryFinally t cleanup).
Proof.
  intros H Hc'; induction H as [n a | n e | n X o k _ IH | n X c k Hc _ IH | n X c k Hc _ IH]; cbn.
  - replace (n + m)%nat with (m + n)%nat by lia.
    apply exchanges_at_most_bind; [done | intros; constructor].
  - replace (n + m)%nat with (m + n)%nat by lia.
    apply exchanges_at_most_bind; [done | intros; constructor].
  - constructor; intros x; apply IH.
  - apply eam_exchange; [done|]. intros x; apply IH.
  - apply eam_other; [done|]. intros x; apply IH.
Qed.

Lemma exchanges_at_most_perform {X} (o : op X) : exchanges_at_most 0 (perform o).
Proof. constructor; intros x; constructor. Qed.

Lemma exchanges_at_most_storeTokens (tokens : TokenResponse) :
  exchanges_at_most 0 (storeTokens tokens).
Proof.
  unfold storeTokens; cbn. repeat (constructor; intros).
  destruct (truthy _); repeat (constructor; intros).
Qed.

Lemma exchanges_at_most_exchangeCodeForTokens (this : AuthService) (code : string) :
  exchanges_at_most 1 (exchangeCodeForTokens this code).
Proof.
  unfold exchangeCodeForTokens; cbn. constructor; intros codeVerifier.
  destruct (truthy codeVerifier); cbn; [|constructor].
  apply eam_exchange; [done|]. intros [reason | [st [tokens | reason] | st errorData]]; cbn;
    repeat (constructor; intros).
Qed.

Lemma exchanges_at_most_getUserInfo (this : AuthService) (accessToken : string) :
  exchanges_at_most 0 (getUserInfo this accessToken).
Proof.
  unfold getUserInfo; cbn.
  apply eam_other; [done|]. intros [reason | [st [user | reason] | st errorData]]; cbn;
    repeat (constructor; intros).
Qed.

Lemma exchanges_at_most_handleCallback (this : AuthService) :
  exchanges_at_most 1 (handleCallback this).
Proof.
  unfold handleCallback.
  change 1%nat with (0 + 1)%nat. apply exchanges_at_most_bind; [apply exchanges_at_most_perform|].
  intros urlParams. destruct (truthy (get urlParams "error")); [constructor|].
  destruct (negb _ || negb _); [constructor|].
  change 1%nat with (0 + 1)%nat. apply exchanges_at_most_bind; [apply exchanges_at_most_perform|].
  intros storedState. destruct (bool_decide _); [constructor|].
  change 1%nat with (1 + 0)%nat.
  apply exchanges_at_most_bind; [apply exchanges_at_most_exchangeCodeForTokens|].
  intros tokens.
  change 0%nat with (0 + 0)%nat.
  apply exchanges_at_most_bind; [apply exchanges_at_most_getUserInfo|].
  intros userInfo.
  repeat (apply (exchanges_at_most_bind _ _ 0 0);
          [first [apply exchanges_at_most_perform | apply exchanges_at_most_storeTokens]|]; intros).
  constructor.
Qed.

Lemma exchanges_at_most_Callback (authService : AuthService) :
  exchanges_at_most 1 (Callback.handleCallback authService).
Proof.
  unfold Callback.handleCallback.
  apply (exchanges_at_most_tryFinally _ _ 1 0); [|apply exchanges_at_most_perform].
  apply (exchanges_at_most_tryCatch _ _ 1 0).
  - apply (exchanges_at_most_bind _ _ 0 1); [apply exchanges_at_most_perform|]. intros _.
    apply (exchanges_at_most_bind _ _ 1 0); [apply exchanges_at_most_handleCallback|]. intros _.
    apply exchanges_at_most_perform.
  - intros e.
    apply (exchanges_at_most_bind _ _ 0 0); [apply exchanges_at_most_perform|]. intros _.
    apply exchanges_at_most_perform.
Qed.

(** Starting or resuming an invocation spends its budget of exchanges. *)
Lemma start_budget {A} (t : Task A) (n : nat) (w : World) :
  exchanges_at_most n t →
  ∃ m, thread_at_most m (start t w).2 ∧
       (exchanges (requests (start t w).1) + m ≤ exchanges (requests w) + n)%nat.
Proof.
  intros H; revert w;
    induction H as [n a | n e | n X o k _ IH | n X c k Hc Hk _ | n X c k Hc Hk _]; intros w; cbn.
  - exists 0%nat; split; [done | lia].
  - exists 0%nat; split; [done | lia].
  - pose proof (exec_requests o w) as Hreq.
    destruct (exec o w) as [w' x]; cbn in Hreq. rewrite <- Hreq. apply IH.
  - exists n; split; [done|]. rewrite exchanges_snoc, Hc. lia.
  - exists n; split; [done|]. rewrite exchanges_snoc, Hc. lia.
Qed.

Lemma deliver_budget (net : Network) {A} (th : Thread A) (n : nat) (w : World) :
  thread_at_most n th →
  ∃ m, thread_at_most m (deliver net th w).2 ∧
       (exchanges (requests (deliver net th w).1) + m ≤ exchanges (requests w) + n)%nat.
Proof.
  destruct th as [r | X c k]; cbn; intros H.
  - exists 0%nat; split; [done | lia].
  - apply (start_budget _ n (tick net w)), H.
Qed.

(** ** C1: at most one token exchange per callback *)

(** Against C1 as stated: two invocations of [AuthService.handleCallback]
    on the same callback, the second started while the first awaits the
    provider. Each submits the authorization code. *)
Lemma handleCallback_twice_exchanges_twice :
  let w1 := (start (handleCallback Scenario.authService) Scenario.redirected).1 in
  let w2 := (start (handleCallback Scenario.authService) w1).1 in
  exchanges (requests Scenario.redirected) = 0%nat ∧
  exchanges (requests w1) = 1%nat ∧
  exchanges (requests w2) = 2%nat.
Proof. vm_compute. done. Qed.

(** The same when the second invocation follows a first one that the
    provider refused: the code is submitted again. *)
Lemma handleCallback_again_after_failure :
  let w1 := (run Scenario.refusing (handleCallback Scenario.authService) Scenario.redirected).1 in
  let w2 := (run Scenario.refusing (handleCallback Scenario.authService) w1).1 in
  exchanges (requests w1) = 1%nat ∧ exchanges (requests w2) = 2%nat.
Proof. vm_compute. done. Qed.

Section CallbackGuard.

Context (net : Network) (authService : AuthService) (w0 : World).

Lemma guarded_mount : guarded w0 (Callback.mount w0).
Proof. by left. Qed.

Lemma guarded_step (p : Callback.Page) (a : Callback.Action) :
  guarded w0 p → guarded w0 (Callback.step net authService p a).
Proof.
  intros [(Hrun & Hpend & Hcount) | (Hrun & th & n & Hpend & Hth & Hcount)];
    destruct a as [|i]; cbn; unfold Callback.effect.
  - rewrite Hrun, Hpend.
    destruct (start_budget (Callback.handleCallback authService) 1 (Callback.world p)
                (exchanges_at_most_Callback authService)) as (m & Hm & Hle).
    destruct (start _ _) as [w th]; cbn in *.
    right; split; [done|]. exists th, m. repeat split; [done|]. cbn. lia.
  - rewrite Hpend; cbn. by left.
  - rewrite Hrun. right; split; [done|]. by exists th, n.
  - rewrite Hpend. destruct i as [|i]; cbn.
    + destruct (deliver_budget net th n (Callback.world p) Hth) as (m & Hm & Hle).
      destruct (deliver _ _ _) as [w th']; cbn in *.
      right; split; [done|]. exists th', m. repeat split; [done|]. cbn. lia.
    + right; split; [done|]. by exists th, n.
Qed.

Lemma guarded_steps (schedule : list Callback.Action) (p : Callback.Page) :
  guarded w0 p → guarded w0 (Callback.steps net authService p schedule).
Proof.
  revert p; induction schedule as [|a schedule IH]; intros p Hp; cbn; [done|].
  apply IH, guarded_step, Hp.
Qed.

Lemma guarded_exchanges (p : Callback.Page) :
  guarded w0 p →
  (exchanges (requests (Callback.world p)) ≤ exchanges (requests w0) + 1)%nat.
Proof. intros [(_ & _ & ->) | (_ & th & n & _ & _ & Hle)]; lia. Qed.

End CallbackGuard.

(** C1, as the code has it: the one-shot guard is the [hasRun] ref of the
    [Callback] component, the caller of [handleCallback]. However often the
    runtime runs the component's effect and in whatever order the network
    answers, one mounted [Callback] adds at most one token-exchange request
    to those already issued. *)
Theorem Callback_exchanges_at_most_once (net : Network) (authService : AuthService)
    (w : World) (schedule : list Callback.Action) :
  (exchanges (requests (Callback.world
      (Callback.steps net authService (Callback.mount w) schedule)))
   ≤ exchanges (requests w) + 1)%nat.
Proof.
  apply (guarded_exchanges w), guarded_steps, guarded_mount.
Qed.

(** The effect run twice (a double mount) and answered to the end, on the
    redirected page: one exchange, and the tokens are stored. *)
Example Callback_double_mount :
  let p := Callback.steps Scenario.accepting Scenario.authService
             (Callback.mount Scenario.redirected)
             [Callback.RunEffect; Callback.RunEffect; Callback.Answer 0; Callback.Answer 0] in
  exchanges (requests (Callback.world p)) = 1%nat ∧
  sessionStorage (Callback.world p) !! "access_token" = Some "at-1" ∧
  Callback.pending p = [Finished (Ok tt)].
Proof. vm_compute. done. Qed.

(** ** C2: a callback whose state is not the persisted one *)

Lemma truthy_Some (s : string) : s ≠ "" → truthy (Some s) = true.
Proof. intros Hs; cbn. by apply negb_true_iff, String.eqb_neq. Qed.

(** Against C2 as stated: a callback with a non-empty code and a state that
    is not the persisted one, which also carries an error parameter. The
    error parameter is looked at first, and the failure is not the state
    mismatch. *)
Lemma handleCallback_error_parameter_first :
  let w := Scenario.denied in
  let r := run Scenario.accepting (handleCallback Scenario.authService) w in
  get (search w) "code" = Some "abc" ∧
  get (search w) "state" = Some "xyz" ∧
  sessionStorage w !! "oauth_state" = Some "abc" ∧
  r.2 = Err "Authentication failed: access_denied" ∧
  r.2 ≠ Err "Invalid state parameter - possible CSRF attack".
Proof. vm_compute. repeat split; done. Qed.

(** C2, as the code has it: when the callback carries no error parameter, a
    non-empty code and a non-empty state, and the state is not the persisted
    one (or none is persisted), [handleCallback] fails with the state
    mismatch error and leaves the page as it was: no request is issued. *)
Theorem handleCallback_state_mismatch (net : Network) (this : AuthService) (w : World)
    (code state : string) :
  truthy (get (search w) "error") = false →
  get (search w) "code" = Some code → code ≠ "" →
  get (search w) "state" = Some state → state ≠ "" →
  sessionStorage w !! "oauth_state" ≠ Some state →
  run net (handleCallback this) w =
    (w, Err "Invalid state parameter - possible CSRF attack").
Proof.
  intros Herror Hcode Hcode' Hstate Hstate' Hstored.
  unfold handleCallback; cbn.
  rewrite Herror, Hcode, Hstate, !truthy_Some by done; cbn.
  by rewrite bool_decide_eq_true_2.
Qed.

Lemma handleCallback_state_mismatch_witness :
  run Scenario.offline (handleCallback Scenario.authService) Scenario.forged =
    (Scenario.forged, Err "Invalid state parameter - possible CSRF attack").
Proof.
  apply (handleCallback_state_mismatch _ _ _ "abc" "xyz"); vm_compute; congruence.
Defined.

(** ** What each method does to the session store *)

(** A tactic for the straight-line methods: unfold, then split on every
    test of a stored value and on every answer of the network. *)
Ltac split_run :=
  cbn;
  repeat (match goal with
          | |- context [token_endpoint ?n ?l ?r] =>
              destruct (token_endpoint n l r) as [? | [? [? | ?] | ? [? | ?]]] eqn:?
          | |- context [userinfo_endpoint ?n ?l ?r] =>
              destruct (userinfo_endpoint n l r) as [? | [? [? | ?] | ? [? | ?]]] eqn:?
          | |- context [revoke_endpoint ?n ?l ?r] =>
              destruct (revoke_endpoint n l r) as [? | [? [? | ?] | ? [? | ?]]] eqn:?
          | |- context [truthy ?x] => destruct (truthy x) eqn:?
          end; cbn).

Section Frames.

Context (net : Network) (this : AuthService).

Lemma exchangeCodeForTokens_storage (code : string) (w : World) :
  sessionStorage (run net (exchangeCodeForTokens this code) w).1 = sessionStorage w.
Proof. unfold exchangeCodeForTokens. split_run; done. Qed.

Lemma getUserInfo_storage (accessToken : string) (w : World) :
  sessionStorage (run net (getUserInfo this accessToken) w).1 = sessionStorage w.
Proof. unfold getUserInfo. split_run; done. Qed.

Lemma run_storeTokens (tokens : TokenResponse) (w : World) :
  run net (storeTokens tokens) w = (with_storage (stored tokens (now w)) w, Ok tt).
Proof.
  unfold storeTokens, stored; cbn. by destruct (truthy (id_token tokens)).
Qed.

Lemma run_clearTokens (w : World) :
  run net clearTokens w =
    (with_storage (λ m, delete "token_expires_at" (delete "refresh_token" (delete "access_token" m))) w,
     Ok tt).
Proof. done. Qed.

End Frames.

(** ** C3: the verifier and the state nonce after the callback *)

(** Against C3 as stated: a callback that passes the state comparison and
    whose token exchange the provider refuses. [handleCallback] fails, and
    the verifier and the state nonce are still in the store. *)
Lemma handleCallback_failure_keeps_verifier :
  let w := Scenario.redirected in
  let r := run Scenario.refusing (handleCallback Scenario.authService) w in
  sessionStorage w !! "oauth_state" = get (search w) "state" ∧
  exchanges (requests r.1) = 1%nat ∧
  r.2 = Err "Failed to exchange authorization code for tokens" ∧
  sessionStorage r.1 !! "code_verifier" = Some "ver" ∧
  sessionStorage r.1 !! "oauth_state" = Some "xyz".
Proof. vm_compute. done. Qed.

(** C3, as the code has it: for an invocation that passes the state
    comparison, the verifier and the state nonce are deleted when
    [handleCallback] returns; when it fails (the verifier is missing, or the
    token exchange or the user-profile fetch fails) the store is left as it
    was. *)
Theorem handleCallback_cleanup (net : Network) (this : AuthService) (w : World)
    (code state : string) :
  truthy (get (search w) "error") = false →
  get (search w) "code" = Some code → code ≠ "" →
  get (search w) "state" = Some state → state ≠ "" →
  sessionStorage w !! "oauth_state" = Some state →
  match run net (handleCallback this) w with
  | (w', Ok _) =>
      sessionStorage w' !! "code_verifier" = None ∧
      sessionStorage w' !! "oauth_state" = None
  | (w', Err _) => sessionStorage w' = sessionStorage w
  end.
Proof.
  intros Herror Hcode Hcode' Hstate Hstate' Hstored.
  unfold handleCallback.
  rewrite run_mbind, run_perform; cbn [exec fst snd].
  rewrite Herror, Hcode, Hstate, !truthy_Some by done; cbn [negb orb].
  rewrite run_mbind, run_perform; cbn [exec fst snd].
  rewrite Hstored, bool_decide_eq_false_2 by (intros H; by apply H).
  rewrite run_mbind.
  pose proof (exchangeCodeForTokens_storage net this (text (Some code)) w) as Hx.
  destruct (run net (exchangeCodeForTokens _ _) w) as [w1 [tokens | e]]; cbn in Hx; [|done].
  rewrite run_mbind.
  pose proof (getUserInfo_storage net this (access_token tokens) w1) as Hu.
  destruct (run net (getUserInfo _ _) w1) as [w2 [userInfo | e]]; cbn in Hu; [|congruence].
  cbn. destruct (truthy (id_token tokens)); cbn; by simplify_map_eq.
Qed.

Lemma handleCallback_cleanup_witness :
  match run Scenario.accepting (handleCallback Scenario.authService) Scenario.redirected with
  | (w', Ok _) =>
      sessionStorage w' !! "code_verifier" = None ∧
      sessionStorage w' !! "oauth_state" = None
  | (w', Err _) => sessionStorage w' = sessionStorage Scenario.redirected
  end.
Proof.
  apply (handleCallback_cleanup _ _ _ "abc" "xyz"); vm_compute; congruence.
Defined.

(** ** C4: the store after [logout] *)

(** [logout] completes whatever the revoke request does, and removes
    exactly the three entries of [clearTokens]. *)
Lemma logout_storage (net : Network) (this : AuthService) (w : World) :
  (run net (logout this) w).2 = Ok tt ∧
  sessionStorage (run net (logout this) w).1 =
    delete "token_expires_at" (delete "refresh_token" (delete "access_token" (sessionStorage w))).
Proof. unfold logout. split_run; done. Qed.

Lemma logout_keeps_other_entries (net : Network) (this : AuthService) (w : World) :
  sessionStorage (run net (logout this) w).1 !! "id_token" = sessionStorage w !! "id_token".
Proof. rewrite (proj2 (logout_storage net this w)). by simplify_map_eq. Qed.

(** C4 on the code: the store of a page that holds an ID token still holds
    it after [logout], with the revoke request answered or failing; the
    access token, the refresh token and the expiry instant are gone. *)
Theorem logout_leaves_id_token (net : Network) (this : AuthService) (w : World)
    (idToken : string) :
  sessionStorage w !! "id_token" = Some idToken →
  let r := run net (logout this) w in
  r.2 = Ok tt ∧
  sessionStorage r.1 !! "access_token" = None ∧
  sessionStorage r.1 !! "refresh_token" = None ∧
  sessionStorage r.1 !! "token_expires_at" = None ∧
  sessionStorage r.1 !! "id_token" = Some idToken.
Proof.
  intros Hid; cbn zeta. rewrite logout_keeps_other_entries.
  destruct (logout_storage net this w) as [-> ->]. by simplify_map_eq.
Qed.

Lemma logout_leaves_id_token_witness :
  let r := run Scenario.offline (logout Scenario.authService) Scenario.logged_in in
  r.2 = Ok tt ∧
  sessionStorage r.1 !! "access_token" = None ∧
  sessionStorage r.1 !! "refresh_token" = None ∧
  sessionStorage r.1 !! "token_expires_at" = None ∧
  sessionStorage r.1 !! "id_token" = Some "idtok123".
Proof.
  apply (logout_leaves_id_token Scenario.offline Scenario.authService Scenario.logged_in).
  reflexivity.
Defined.

(** The same page, with the provider answering the revoke request: the ID
    token is the only entry left, after having been passed as the hint of
    the logout redirect. *)
Example logout_logged_in :
  let r := run Scenario.accepting (logout Scenario.authService) Scenario.logged_in in
  sessionStorage r.1 = {["id_token" := "idtok123"]} ∧
  last (events r.1) =
    Some (LocationHref
            "https://oneid.ticket-bangla.com/realms/oneid/protocol/openid-connect/logout"
            [("id_token_hint", "idtok123");
             ("post_logout_redirect_uri", "https://app.example")]).
Proof. vm_compute. done. Qed.

(** ** C5 and C10: failures of [refreshToken] *)

(** What the two failures do: without a persisted refresh token [refreshToken] fails with the
    error of a missing refresh token and touches nothing (no request is
    issued); when the provider answers the refresh request with a
    non-success response, [refreshToken] fails with its refresh error and
    the store holds no access token, no refresh token and no expiry
    instant. *)
Theorem refreshToken_failure (net : Network) (this : AuthService) (w : World) :
  (sessionStorage w !! "refresh_token" = None →
   run net (refreshToken this) w = (w, Err "No refresh token available"))
  ∧
  (∀ rt st body,
     sessionStorage w !! "refresh_token" = Some rt → rt ≠ "" →
     token_endpoint net (requests w ++ [refresh_request this rt]) (refresh_request this rt)
       = Resolved (RespFail st body) →
     let r := run net (refreshToken this) w in
     r.2 = Err "Failed to refresh access token" ∧
     sessionStorage r.1 !! "access_token" = None ∧
     sessionStorage r.1 !! "refresh_token" = None ∧
     sessionStorage r.1 !! "token_expires_at" = None).
Proof.
  split.
  - intros Hrt. unfold refreshToken; cbn. by rewrite Hrt.
  - intros rt st body Hrt Hne Hanswer. unfold refresh_request in Hanswer.
    unfold refreshToken; cbn.
    rewrite Hrt, truthy_Some by done; cbn. rewrite Hanswer; cbn.
    repeat split; by simplify_map_eq.
Qed.

Lemma refreshToken_failure_witness :
  run Scenario.accepting (refreshToken Scenario.authService) Scenario.redirected
    = (Scenario.redirected, Err "No refresh token available")
  ∧
  (let r := run Scenario.refusing (refreshToken Scenario.authService) Scenario.logged_in in
   r.2 = Err "Failed to refresh access token" ∧
   sessionStorage r.1 !! "access_token" = None ∧
   sessionStorage r.1 !! "refresh_token" = None ∧
   sessionStorage r.1 !! "token_expires_at" = None).
Proof.
  split.
  - apply (refreshToken_failure Scenario.accepting Scenario.authService Scenario.redirected).
    reflexivity.
  - apply (proj2 (refreshToken_failure Scenario.refusing Scenario.authService Scenario.logged_in)
             "rt-1" "Bad Request"
             (Ok {| error := "invalid_grant"; error_description := Some "Code not valid";
                    error_uri := None |})).
    + reflexivity.
    + discriminate.
    + reflexivity.
Defined.

(** Every failure of [refreshToken] carries one of two fixed messages. *)
Lemma refreshToken_errors (net : Network) (this : AuthService) (w : World) (e : string) :
  (run net (refreshToken this) w).2 = Err e →
  e = "No refresh token available" ∨ e = "Failed to refresh access token".
Proof.
  unfold refreshToken, getStoredRefreshToken. split_run; intros [= <-]; auto.
Qed.



(** The caller gets the same error when the network is down. *)
Example refreshToken_same_error_offline :
  (run Scenario.refusing (refreshToken Scenario.authService) Scenario.logged_in).2
  = (run Scenario.offline (refreshToken Scenario.authService) Scenario.logged_in).2.
Proof. reflexivity. Qed.

(** C10: when the refresh request fails at the transport level,
    [refreshToken] fails with its refresh error and the store is exactly
    what it was. *)
Theorem refreshToken_transport_failure (net : Network) (this : AuthService) (w : World)
    (rt reason : string) :
  sessionStorage w !! "refresh_token" = Some rt → rt ≠ "" →
  token_endpoint net (requests w ++ [refresh_request this rt]) (refresh_request this rt)
    = Rejected reason →
  let r := run net (refreshToken this) w in
  r.2 = Err "Failed to refresh access token" ∧
  sessionStorage r.1 = sessionStorage w.
Proof.
  intros Hrt Hne Hanswer. unfold refresh_request in Hanswer.
  unfold refreshToken; cbn.
  rewrite Hrt, truthy_Some by done; cbn. by rewrite Hanswer.
Qed.

Lemma refreshToken_transport_failure_witness :
  let r := run Scenario.offline (refreshToken Scenario.authService) Scenario.logged_in in
  r.2 = Err "Failed to refresh access token" ∧
  sessionStorage r.1 = sessionStorage Scenario.logged_in.
Proof.
  apply (refreshToken_transport_failure _ _ _ "rt-1" "Failed to fetch");
    [reflexivity | discriminate | reflexivity].
Defined.

(** ** C6: what a refused token exchange reports *)

(** Every failure of [exchangeCodeForTokens] carries one of two fixed
    messages. *)
Lemma exchangeCodeForTokens_errors (net : Network) (this : AuthService) (code : string)
    (w : World) (e : string) :
  (run net (exchangeCodeForTokens this code) w).2 = Err e →
  e = "Code verifier not found" ∨
  e = "Failed to exchange authorization code for tokens".
Proof. unfold exchangeCodeForTokens. split_run; intros [= <-]; auto. Qed.

(** C6 at a refused exchange whose body describes the error: the
    description is written to the console, and the error that reaches the
    caller is the fixed message. *)
Theorem exchangeCodeForTokens_drops_description :
  let r := run Scenario.refusing (exchangeCodeForTokens Scenario.authService "abc")
             Scenario.redirected in
  events r.1 = [ConsoleError "Token exchange error:" "Token exchange failed: Code not valid"] ∧
  r.2 = Err "Failed to exchange authorization code for tokens".
Proof. vm_compute. done. Qed.

(** ** C7: expiry *)

Lemma isTokenExpired_world (net : Network) (w : World) :
  (run net isTokenExpired w).1 = w.
Proof. unfold isTokenExpired; cbn. by destruct (truthy _). Qed.

(** With an expiry instant [e] in the store, the token counts as expired
    exactly when the current time exceeds [e - 30000]. *)
Lemma isTokenExpired_stored (net : Network) (w : World) (e : Z) :
  sessionStorage w !! "token_expires_at" = Some (Number.toString e) →
  run net isTokenExpired w = (w, Ok (e - 30000 <? now w)).
Proof.
  intros He. unfold isTokenExpired; cbn.
  rewrite He, truthy_Some by apply toString_nonempty; cbn.
  by rewrite parseInt_toString.
Qed.

Lemma storeTokens_expiry (net : Network) (tokens : TokenResponse) (w : World) :
  sessionStorage (run net (storeTokens tokens) w).1 !! "token_expires_at" =
    Some (Number.toString (now w + expires_in tokens * 1000)).
Proof.
  rewrite run_storeTokens; cbn. unfold stored.
  destruct (truthy (id_token tokens)); by simplify_map_eq.
Qed.

(** C7: [isTokenExpired] is true when no expiry instant is stored; and
    after [storeTokens] of a token set with [expires_in = 300] at instant
    [T], it is false at [T + 269 s] and true at [T + 271 s]. *)
Theorem isTokenExpired_buffer (net : Network) (w : World) :
  (sessionStorage w !! "token_expires_at" = None →
   run net isTokenExpired w = (w, Ok true))
  ∧
  (∀ tokens T,
     time_value T → now w = T → expires_in tokens = 300 →
     let w' := (run net (storeTokens tokens) w).1 in
     (run net isTokenExpired (with_now (T + 269000) w')).2 = Ok false ∧
     (run net isTokenExpired (with_now (T + 271000) w')).2 = Ok true).
Proof.
  split.
  - intros He. unfold isTokenExpired; cbn. by rewrite He.
  - intros tokens T _ HT Hexp w'.
    pose proof (storeTokens_expiry net tokens w) as He. fold w' in He.
    rewrite Hexp, HT in He.
    split.
    + rewrite (isTokenExpired_stored net _ (T + 300 * 1000)) by done; cbn.
      do 2 f_equal. lia.
    + rewrite (isTokenExpired_stored net _ (T + 300 * 1000)) by done; cbn.
      do 2 f_equal. lia.
Qed.

Lemma isTokenExpired_buffer_witness :
  run Scenario.offline isTokenExpired Scenario.redirected = (Scenario.redirected, Ok true)
  ∧
  (let w' := (run Scenario.offline (storeTokens Scenario.tokens) Scenario.redirected).1 in
   (run Scenario.offline isTokenExpired (with_now (1700000000000 + 269000) w')).2 = Ok false ∧
   (run Scenario.offline isTokenExpired (with_now (1700000000000 + 271000) w')).2 = Ok true).
Proof.
  split.
  - apply (isTokenExpired_buffer Scenario.offline Scenario.redirected). reflexivity.
  - apply (proj2 (isTokenExpired_buffer Scenario.offline Scenario.redirected)
             Scenario.tokens 1700000000000).
    + unfold time_value. lia.
    + reflexivity.
    + reflexivity.
Defined.

(** At the threshold itself the token does not count as expired yet. *)
Example isTokenExpired_at_threshold :
  let w' := (run Scenario.offline (storeTokens Scenario.tokens) Scenario.redirected).1 in
  (run Scenario.offline isTokenExpired (with_now (1700000000000 + 270000) w')).2 = Ok false ∧
  (run Scenario.offline isTokenExpired (with_now (1700000000000 + 270001) w')).2 = Ok true.
Proof. vm_compute. done. Qed.

(** ** C8: [getCurrentUser] degrades to no user *)

(** C8: [getCurrentUser] never fails: it returns a profile or no user. It
    returns no user when no access token is stored, and when the stored
    token has expired and the refresh fails or leaves no access token. *)
Theorem getCurrentUser_degrades (net : Network) (this : AuthService) (w : World) :
  (∃ user, (run net (getCurrentUser this) w).2 = Ok user)
  ∧
  (sessionStorage w !! "access_token" = None →
   run net (getCurrentUser this) w = (w, Ok None))
  ∧
  (∀ accessToken,
     sessionStorage w !! "access_token" = Some accessToken → accessToken ≠ "" →
     (run net isTokenExpired w).2 = Ok true →
     match run net (refreshToken this) w with
     | (_, Err _) => True
     | (w', Ok _) => truthy (sessionStorage w' !! "access_token") = false
     end →
     (run net (getCurrentUser this) w).2 = Ok None).
Proof.
  repeat split.
  - unfold getCurrentUser. rewrite run_tryCatch.
    destruct (run net _ w) as [w' [user | e]]; cbn; eauto.
  - intros Hat. unfold getCurrentUser; cbn. by rewrite Hat.
  - intros accessToken Hat Hne Hexpired Hrefresh.
    unfold getCurrentUser. rewrite run_tryCatch.
    unfold getStoredAccessToken. rewrite run_mbind, run_perform; cbn [exec fst snd].
    rewrite Hat, truthy_Some by done; cbn [negb].
    rewrite run_mbind.
    pose proof (isTokenExpired_world net w) as Hw.
    destruct (run net isTokenExpired w) as [w1 r]; cbn in Hw, Hexpired; subst w1 r.
    rewrite !run_mbind.
    destruct (run net (refreshToken this) w) as [w' [tokens | e]]; cbn.
    + by rewrite Hrefresh.
    + done.
Qed.

Lemma getCurrentUser_degrades_witness :
  (∃ user, (run Scenario.refusing (getCurrentUser Scenario.authService)
              (with_now 1700000400000 Scenario.logged_in)).2 = Ok user)
  ∧
  run Scenario.accepting (getCurrentUser Scenario.authService) Scenario.redirected
    = (Scenario.redirected, Ok None)
  ∧
  (run Scenario.refusing (getCurrentUser Scenario.authService)
     (with_now 1700000400000 Scenario.logged_in)).2 = Ok None.
Proof.
  pose proof (getCurrentUser_degrades Scenario.refusing Scenario.authService
                (with_now 1700000400000 Scenario.logged_in)) as (Htotal & _ & Hexpired).
  pose proof (getCurrentUser_degrades Scenario.accepting Scenario.authService
                Scenario.redirected) as (_ & Hnone & _).
  split; [exact Htotal|]. split.
  - apply Hnone. reflexivity.
  - apply (Hexpired "at-1").
    + reflexivity.
    + discriminate.
    + reflexivity.
    + exact I.
Defined.

(** ** C9: the code verifier *)

Lemma charset_length : String.length pkce.charset = 66%nat.
Proof. reflexivity. Qed.

(** Every position of the character set holds an unreserved character. *)
Lemma charAt_charset (i : nat) :
  (i < 66)%nat →
  ∃ c, pkce.charAt pkce.charset i = String c "" ∧ pkce.unreserved c = true.
Proof.
  intros Hi.
  do 66 (destruct i as [|i]; [eexists; split; reflexivity|]).
  lia.
Qed.

Lemma length_snoc (s : string) (c : ascii) :
  String.length (s +:+ String c "") = S (String.length s).
Proof.
  induction s as [|c' s IH]; [done|].
  change (S (String.length (s +:+ String c "")) = S (S (String.length s))).
  by rewrite IH.
Qed.

Lemma chars_snoc (s : string) (c : ascii) :
  list_ascii_of_string (s +:+ String c "") = (list_ascii_of_string s ++ [c])%list.
Proof.
  induction s as [|c' s IH]; [done|].
  change (c' :: list_ascii_of_string (s +:+ String c "") = c' :: (list_ascii_of_string s ++ [c])%list).
  by rewrite IH.
Qed.

(** The loop of [generateCodeVerifier], from index [i] on: each of its [n]
    iterations appends one unreserved character. *)
Lemma generateCodeVerifier_loop (randomValues : nat → byte) (n i : nat) (result : string) :
  let result' :=
    fold_left
      (λ result i,
         result +:+ pkce.charAt pkce.charset
                      (Byte.to_nat (randomValues i) mod String.length pkce.charset))
      (seq i n) result in
  String.length result' = (String.length result + n)%nat ∧
  (Forall (λ c, pkce.unreserved c = true) (list_ascii_of_string result) →
   Forall (λ c, pkce.unreserved c = true) (list_ascii_of_string result')).
Proof.
  revert i result; induction n as [|n IH]; intros i result; cbn [seq fold_left].
  - split; [lia | done].
  - destruct (charAt_charset (Byte.to_nat (randomValues i) mod String.length pkce.charset))
      as (c & Hc & Hun).
    { rewrite charset_length. apply Nat.mod_upper_bound. lia. }
    rewrite Hc. destruct (IH (S i) (result +:+ String c "")) as [Hlen Hall].
    split.
    + rewrite Hlen, length_snoc. lia.
    + intros Hres. apply Hall. rewrite chars_snoc. apply Forall_app; split; [done|].
      by constructor.
Qed.





Example generateCodeVerifier_five :
  pkce.generateCodeVerifier (λ _, Ok (λ i, default Byte.x00 (Byte.of_nat (37 * i + 5))))
    (Some 5%nat) = Ok "FqNyV".
Proof. vm_compute. reflexivity. Qed.

(** * Further properties *)

Local Open Scope list_scope.

(** ** Strings *)

Lemma append_nil_r (s : string) : s +:+ "" = s.
Proof.
  induction s as [|c s IH]; [done|].
  change (String c (s +:+ "") = String c s). by rewrite IH.
Qed.

Lemma append_assoc (s t u : string) : (s +:+ t) +:+ u = s +:+ (t +:+ u).
Proof.
  induction s as [|c s IH]; [done|].
  change (String c ((s +:+ t) +:+ u) = String c (s +:+ (t +:+ u))). by rewrite IH.
Qed.

Lemma length_append (s t : string) :
  String.length (s +:+ t) = (String.length s + String.length t)%nat.
Proof.
  induction s as [|c s IH]; [done|].
  change (S (String.length (s +:+ t)) = S (String.length s + String.length t)).
  by rewrite IH.
Qed.

Lemma chars_append (s t : string) :
  list_ascii_of_string (s +:+ t) = (list_ascii_of_string s ++ list_ascii_of_string t)%list.
Proof.
  induction s as [|c s IH]; [done|].
  change (c :: list_ascii_of_string (s +:+ t)
          = c :: (list_ascii_of_string s ++ list_ascii_of_string t)%list).
  by rewrite IH.
Qed.

(** ** The state nonce *)

(** The two digits of a byte, and the byte they read back to. *)
Lemma byte_hex (b : byte) :
  ∃ c1 c2,
    padStart (toString16 (Byte.to_N b)) 2 "0" = String c1 (String c2 "") ∧
    hex_char c1 = true ∧ hex_char c2 = true ∧
    Byte.of_N (N.of_hex_uint
      (default Hexadecimal.Nil
         (HexadecimalString.NilEmpty.uint_of_string (String c1 (String c2 ""))))) = Some b.
Proof.
  destruct b; do 2 eexists; (split; [vm_compute; reflexivity|]); vm_compute; done.
Qed.

Lemma byte_hex_inj (b b' : byte) :
  padStart (toString16 (Byte.to_N b)) 2 "0" = padStart (toString16 (Byte.to_N b')) 2 "0" →
  b = b'.
Proof.
  destruct (byte_hex b) as (c1 & c2 & -> & _ & _ & Hb).
  destruct (byte_hex b') as (c1' & c2' & -> & _ & _ & Hb').
  intros Heq. rewrite Heq in Hb. congruence.
Qed.

(** The hexadecimal print of a list of bytes. *)
Lemma join_hex (bytes : list byte) :
  let s := join (map (λ b, padStart (toString16 (Byte.to_N b)) 2 "0") bytes) in
  String.length s = (2 * length bytes)%nat ∧
  Forall (λ c, hex_char c = true) (list_ascii_of_string s).
Proof.
  induction bytes as [|b bytes [IHlen IHall]]; [by split|].
  cbn [map join fold_right length].
  destruct (byte_hex b) as (c1 & c2 & -> & H1 & H2 & _).
  split.
  - rewrite length_append. cbn [String.length]. unfold join in IHlen. rewrite IHlen. lia.
  - rewrite chars_append. apply Forall_app; split; [by repeat constructor | exact IHall].
Qed.

Lemma join_hex_inj (bytes bytes' : list byte) :
  length bytes = length bytes' →
  join (map (λ b, padStart (toString16 (Byte.to_N b)) 2 "0") bytes)
  = join (map (λ b, padStart (toString16 (Byte.to_N b)) 2 "0") bytes') →
  bytes = bytes'.
Proof.
  revert bytes'; induction bytes as [|b bytes IH]; intros [|b' bytes'] Hlen; try done.
  cbn [map join fold_right].
  pose proof (byte_hex_inj b b') as Hinj.
  destruct (byte_hex b) as (c1 & c2 & Hb & _). destruct (byte_hex b') as (c1' & c2' & Hb' & _).
  rewrite Hb, Hb' in Hinj |- *. intros [= -> -> Htail].
  f_equal; [by apply Hinj | apply IH; [by injection Hlen | exact Htail]].
Qed.

(** X1: when the random source delivers, [generateState] returns 64
    lower-case hexadecimal digits. *)
Theorem generateState_hex (getRandomValues : nat → Result (nat → byte))
    (array : nat → byte) :
  getRandomValues 32%nat = Ok array →
  ∃ state,
    generateState getRandomValues = Ok state ∧
    String.length state = 64%nat ∧
    Forall (λ c, hex_char c = true) (list_ascii_of_string state).
Proof.
  intros Hrandom. unfold generateState. rewrite Hrandom.
  eexists; split; [reflexivity|].
  rewrite <- (map_map array (λ b, padStart (toString16 (Byte.to_N b)) 2 "0")).
  destruct (join_hex (map array (seq 0 32))) as [Hlen Hall].
  split; [|exact Hall]. by rewrite Hlen, length_map, length_seq.
Qed.

Lemma generateState_hex_witness :
  ∃ state,
    generateState (getRandomValues Visit.crypto) = Ok state ∧
    String.length state = 64%nat ∧
    Forall (λ c, hex_char c = true) (list_ascii_of_string state).
Proof.
  apply (generateState_hex _ (λ i, default Byte.x00 (Byte.of_nat (37 * i + 5)))).
  reflexivity.
Defined.

(** X2: the state nonce keeps all the randomness it is drawn from: two
    draws of 32 bytes that give the same state are the same bytes. *)
Theorem generateState_injective (source source' : nat → Result (nat → byte))
    (array array' : nat → byte) (state : string) :
  source 32%nat = Ok array → source' 32%nat = Ok array' →
  generateState source = Ok state → generateState source' = Ok state →
  ∀ i, (i < 32)%nat → array i = array' i.
Proof.
  intros Hs Hs' H H' i Hi. unfold generateState in H, H'. rewrite Hs in H. rewrite Hs' in H'.
  assert (join (map (λ b, padStart (toString16 (Byte.to_N b)) 2 "0") (map array (seq 0 32)))
          = join (map (λ b, padStart (toString16 (Byte.to_N b)) 2 "0") (map array' (seq 0 32))))
    as Heq by (rewrite !map_map; congruence).
  apply join_hex_inj in Heq; [|by rewrite !length_map].
  assert (map array (seq 0 32) !! i = Some (array i)) as Hi'.
  { rewrite list_lookup_fmap, lookup_seq_lt by done. done. }
  rewrite Heq, list_lookup_fmap, lookup_seq_lt in Hi' by done. by injection Hi'.
Qed.

Lemma generateState_injective_witness :
  default Byte.x00 (Byte.of_nat (37 * 5 + 5))
  = (if (5 <? 32)%nat then default Byte.x00 (Byte.of_nat (37 * 5 + 5)) else Byte.xff).
Proof.
  apply (generateState_injective
           (getRandomValues Visit.crypto)
           (λ _, Ok (λ i, if (i <? 32)%nat then default Byte.x00 (Byte.of_nat (37 * i + 5))
                          else Byte.xff))
           (λ i, default Byte.x00 (Byte.of_nat (37 * i + 5)))
           (λ i, if (i <? 32)%nat then default Byte.x00 (Byte.of_nat (37 * i + 5))
                 else Byte.xff)
           "052a4f7499bee300000000000000000000000000000000000000000000000000" eq_refl eq_refl
           eq_refl eq_refl 5%nat).
  lia.
Defined.

(** ** The code challenge *)

Lemma replaceAll_append (c : ascii) (by_ s t : string) :
  replaceAll c by_ (s +:+ t) = replaceAll c by_ s +:+ replaceAll c by_ t.
Proof.
  induction s as [|x s IH]; [done|].
  change (replaceAll c by_ (String x (s +:+ t))
          = replaceAll c by_ (String x s) +:+ replaceAll c by_ t).
  cbn [replaceAll]. by rewrite IH, append_assoc.
Qed.

(** The three replacements of [generateCodeChallenge] work character by
    character. *)
Lemma replacements_String (x : ascii) (s : string) :
  replaceAll "=" "" (replaceAll "/" "_" (replaceAll "+" "-" (String x s)))
  = replaceAll "=" "" (replaceAll "/" "_" (replaceAll "+" "-" (String x "")))
    +:+ replaceAll "=" "" (replaceAll "/" "_" (replaceAll "+" "-" s)).
Proof.
  cbn [replaceAll]. rewrite !replaceAll_append. f_equal.
  by rewrite !append_nil_r.
Qed.

(** A character of the alphabet of [btoa] becomes one character of
    base64url, and the padding disappears. *)
Lemma replacements_base64_char (i : nat) (s : string) :
  (i < 64)%nat →
  ∃ y, replaceAll "=" "" (replaceAll "/" "_" (replaceAll "+" "-" (String (base64_char i) s)))
       = String y (replaceAll "=" "" (replaceAll "/" "_" (replaceAll "+" "-" s)))
       ∧ base64url_char y = true.
Proof.
  intros Hi. rewrite replacements_String.
  do 64 (destruct i as [|i]; [eexists; split; reflexivity|]).
  lia.
Qed.

Lemma replacements_padding (s : string) :
  replaceAll "=" "" (replaceAll "/" "_" (replaceAll "+" "-" (String "=" s)))
  = replaceAll "=" "" (replaceAll "/" "_" (replaceAll "+" "-" s)).
Proof. by rewrite replacements_String. Qed.

(** Lists, three elements at a time. *)
Lemma list_ind3 {A} (P : list A → Prop) :
  P [] → (∀ a, P [a]) → (∀ a b, P [a; b]) →
  (∀ a b c rest, P rest → P (a :: b :: c :: rest)) →
  ∀ l, P l.
Proof.
  intros H0 H1 H2 H3.
  assert (∀ l, P l ∧ (∀ a, P (a :: l)) ∧ (∀ a b, P (a :: b :: l))) as H.
  { induction l as [|x l (IH0 & IH1 & IH2)]; [by repeat split|].
    repeat split; [apply IH1 | intros; apply IH2 | intros; by apply H3]. }
  intros l. apply H.
Qed.

Lemma base64_length_3 (n : nat) : base64_length (3 + n) = (4 + base64_length n)%nat.
Proof.
  unfold base64_length.
  replace (4 * (3 + n) + 2)%nat with (4 * n + 2 + 4 * 3)%nat by lia.
  rewrite Nat.div_add by done. lia.
Qed.

Lemma replacements_btoa (codes : list nat) :
  Forall (λ a, (a < 256)%nat) codes →
  let s := replaceAll "=" "" (replaceAll "/" "_" (replaceAll "+" "-" (btoa_codes codes))) in
  String.length s = base64_length (length codes) ∧
  Forall (λ c, base64url_char c = true) (list_ascii_of_string s).
Proof.
  induction codes as [| a | a b | a b c rest IH] using list_ind3; intros Hb; cbn zeta.
  - by split.
  - apply Forall_cons in Hb as [Ha _].
    cbn [btoa_codes].
    destruct (replacements_base64_char (a / 4) (String (base64_char (a mod 4 * 16)) "=="))
      as (y1 & -> & H1).
    { apply Nat.Div0.div_lt_upper_bound. lia. }
    destruct (replacements_base64_char (a mod 4 * 16) "==") as (y2 & -> & H2).
    { pose proof (Nat.mod_upper_bound a 4). lia. }
    rewrite !replacements_padding.
    split; [reflexivity | by repeat constructor].
  - apply Forall_cons in Hb as [Ha Hb]. apply Forall_cons in Hb as [Hb _].
    cbn [btoa_codes].
    destruct (replacements_base64_char (a / 4)
                (String (base64_char (a mod 4 * 16 + b / 16))
                   (String (base64_char (b mod 16 * 4)) "="))) as (y1 & -> & H1).
    { apply Nat.Div0.div_lt_upper_bound. lia. }
    destruct (replacements_base64_char (a mod 4 * 16 + b / 16)
                (String (base64_char (b mod 16 * 4)) "=")) as (y2 & -> & H2).
    { pose proof (Nat.mod_upper_bound a 4).
      assert (b / 16 < 16)%nat by (apply Nat.Div0.div_lt_upper_bound; lia). lia. }
    destruct (replacements_base64_char (b mod 16 * 4) "=") as (y3 & -> & H3).
    { pose proof (Nat.mod_upper_bound b 16). lia. }
    rewrite replacements_padding.
    split; [reflexivity | by repeat constructor].
  - apply Forall_cons in Hb as [Ha Hb]. apply Forall_cons in Hb as [Hb Hc].
    apply Forall_cons in Hc as [Hc Hrest].
    destruct (IH Hrest) as [IHlen IHall].
    cbn [btoa_codes].
    destruct (replacements_base64_char (a / 4)
                (String (base64_char (a mod 4 * 16 + b / 16))
                   (String (base64_char (b mod 16 * 4 + c / 64))
                      (String (base64_char (c mod 64)) (btoa_codes rest)))))
      as (y1 & -> & H1).
    { apply Nat.Div0.div_lt_upper_bound. lia. }
    destruct (replacements_base64_char (a mod 4 * 16 + b / 16)
                (String (base64_char (b mod 16 * 4 + c / 64))
                   (String (base64_char (c mod 64)) (btoa_codes rest))))
      as (y2 & -> & H2).
    { pose proof (Nat.mod_upper_bound a 4).
      assert (b / 16 < 16)%nat by (apply Nat.Div0.div_lt_upper_bound; lia). lia. }
    destruct (replacements_base64_char (b mod 16 * 4 + c / 64)
                (String (base64_char (c mod 64)) (btoa_codes rest)))
      as (y3 & -> & H3).
    { pose proof (Nat.mod_upper_bound b 16).
      assert (c / 64 < 4)%nat by (apply Nat.Div0.div_lt_upper_bound; lia). lia. }
    destruct (replacements_base64_char (c mod 64) (btoa_codes rest)) as (y4 & -> & H4).
    { apply Nat.mod_upper_bound. lia. }
    split.
    + change (length (a :: b :: c :: rest)) with (3 + length rest)%nat.
      rewrite base64_length_3. cbn [String.length]. rewrite IHlen. lia.
    + cbn [list_ascii_of_string]. by repeat constructor.
Qed.

(** X3: when the digest is delivered, the code challenge is made of
    base64url characters only (so it holds no [+], [/] or [=]), four for
    every three bytes of the digest: 43 for the 32 bytes of SHA-256. *)
Theorem generateCodeChallenge_base64url (digest : list byte → Result (list byte))
    (codeVerifier : string) (bytes : list byte) :
  digest (list_byte_of_string codeVerifier) = Ok bytes →
  ∃ challenge,
    generateCodeChallenge digest codeVerifier = Ok challenge ∧
    Forall (λ c, base64url_char c = true) (list_ascii_of_string challenge) ∧
    String.length challenge = base64_length (length bytes) ∧
    (length bytes = 32%nat → String.length challenge = 43%nat).
Proof.
  intros Hdigest. unfold generateCodeChallenge. rewrite Hdigest.
  eexists; split; [reflexivity|].
  destruct (replacements_btoa
              (map nat_of_ascii (list_ascii_of_string (string_of_list_byte bytes))))
    as [Hlen Hall].
  { apply Forall_forall. intros a Ha. apply list_elem_of_In, in_map_iff in Ha as (c & <- & _).
    apply nat_ascii_bounded. }
  assert (length (map nat_of_ascii (list_ascii_of_string (string_of_list_byte bytes)))
          = length bytes) as Hcodes.
  { unfold string_of_list_byte.
    by rewrite list_ascii_of_string_of_list_ascii, !length_map. }
  rewrite Hcodes in Hlen.
  unfold btoa. repeat split; [exact Hall | exact Hlen |].
  intros H32. rewrite Hlen, H32. reflexivity.
Qed.

Lemma generateCodeChallenge_base64url_witness :
  ∃ challenge,
    generateCodeChallenge (digest Visit.crypto) "dBjftJeZ4CVP-mB92K27uhbUJU1p1r_wW1gFWFOEjXk"
      = Ok challenge ∧
    Forall (λ c, base64url_char c = true) (list_ascii_of_string challenge) ∧
    String.length challenge = base64_length 32 ∧
    (32%nat = 32%nat → String.length challenge = 43%nat).
Proof.
  apply (generateCodeChallenge_base64url (digest Visit.crypto)
           "dBjftJeZ4CVP-mB92K27uhbUJU1p1r_wW1gFWFOEjXk"
           (take 32 (list_byte_of_string "dBjftJeZ4CVP-mB92K27uhbUJU1p1r_wW1gFWFOEjXk"
                     ++ repeat Byte.xfb 32))).
  reflexivity.
Defined.

Example btoa_padding :
  btoa "light work." = "bGlnaHQgd29yay4=" ∧ btoa "Ma" = "TWE=" ∧ btoa "M" = "TQ==".
Proof. vm_compute. done. Qed.

(** ** Starting a login *)

Lemma run_settle (net : Network) {A} (r : Result A) (w : World) :
  run net (settle r) w = (w, r).
Proof. by destruct r. Qed.

(** What the three generators return when the cryptography delivers. *)
Lemma generators_deliver (crypto : Crypto) (rv rs : nat → byte) :
  getRandomValues crypto 128%nat = Ok rv →
  getRandomValues crypto 32%nat = Ok rs →
  (∀ data, ∃ bytes, digest crypto data = Ok bytes) →
  ∃ verifier state challenge,
    pkce.generateCodeVerifier (getRandomValues crypto) None = Ok verifier ∧
    generateState (getRandomValues crypto) = Ok state ∧
    generateCodeChallenge (digest crypto) verifier = Ok challenge ∧
    String.length verifier = 128%nat ∧ String.length state = 64%nat.
Proof.
  intros Hrv Hrs Hdigest.
  destruct (generateCodeVerifier_loop rv 128 0 "") as [Hvlen _].
  destruct (join_hex (map rs (seq 0 32))) as [Hslen _].
  rewrite map_map in Hslen.
  assert (pkce.generateCodeVerifier (getRandomValues crypto) None
          = Ok (fold_left
                  (λ result i,
                     result +:+ pkce.charAt pkce.charset
                                  (Byte.to_nat (rv i) mod String.length pkce.charset))
                  (seq 0 128) "")) as Hv.
  { cbv beta iota zeta delta [pkce.generateCodeVerifier default from_option id].
    by rewrite Hrv. }
  destruct (Hdigest (list_byte_of_string
      (fold_left
         (λ result i,
            result +:+ pkce.charAt pkce.charset
                         (Byte.to_nat (rv i) mod String.length pkce.charset))
         (seq 0 128) ""))) as [bytes Hbytes].
  eexists _, _, _. split; [exact Hv|]. split; [|split; [|split]].
  - unfold generateState. rewrite Hrs. reflexivity.
  - unfold generateCodeChallenge. rewrite Hbytes. reflexivity.
  - exact Hvlen.
  - by rewrite Hslen, length_map, length_seq.
Qed.

(** The run of [initiateLogin] when the three generators deliver. *)
Lemma run_initiateLogin (net : Network) (crypto : Crypto) (this : AuthService) (w : World)
    (verifier state challenge : string) :
  pkce.generateCodeVerifier (getRandomValues crypto) None = Ok verifier →
  generateState (getRandomValues crypto) = Ok state →
  generateCodeChallenge (digest crypto) verifier = Ok challenge →
  run net (initiateLogin crypto this) w =
    (emit (LocationHref (endpoint this "auth") (authorization_query this state challenge))
       (with_storage (λ m, <["oauth_state" := state]> (<["code_verifier" := verifier]> m)) w),
     Ok tt).
Proof.
  intros Hv Hs Hc. unfold initiateLogin.
  rewrite Hv. cbn [settle mbind Task_bind bind tryCatch].
  rewrite Hs. cbn [settle mbind Task_bind bind tryCatch].
  rewrite Hc. reflexivity.
Qed.

(** X4: when the cryptography of the page delivers, [initiateLogin]
    persists a verifier of 128 characters and a state of 64, then redirects
    to the authorization endpoint with that state and with the challenge
    of that verifier; it completes, and issues no request. *)
Theorem initiateLogin_redirects (net : Network) (crypto : Crypto) (this : AuthService)
    (w : World) (rv rs : nat → byte) :
  getRandomValues crypto 128%nat = Ok rv →
  getRandomValues crypto 32%nat = Ok rs →
  (∀ data, ∃ bytes, digest crypto data = Ok bytes) →
  ∃ verifier state challenge,
    String.length verifier = 128%nat ∧ String.length state = 64%nat ∧
    generateCodeChallenge (digest crypto) verifier = Ok challenge ∧
    let r := run net (initiateLogin crypto this) w in
    r.2 = Ok tt ∧
    sessionStorage r.1 = <["oauth_state" := state]> (<["code_verifier" := verifier]> (sessionStorage w)) ∧
    events r.1 = events w ++
      [LocationHref (endpoint this "auth") (authorization_query this state challenge)] ∧
    requests r.1 = requests w.
Proof.
  intros Hrv Hrs Hdigest.
  destruct (generators_deliver crypto rv rs Hrv Hrs Hdigest)
    as (verifier & state & challenge & Hv & Hs & Hc & Hvlen & Hslen).
  exists verifier, state, challenge. repeat split; [done.. | | | |];
    by rewrite (run_initiateLogin net crypto this w verifier state challenge).
Qed.

Lemma initiateLogin_redirects_witness :
  ∃ verifier state challenge,
    String.length verifier = 128%nat ∧ String.length state = 64%nat ∧
    generateCodeChallenge (digest Visit.crypto) verifier = Ok challenge ∧
    let r := run Scenario.offline (initiateLogin Visit.crypto Scenario.authService) Visit.fresh in
    r.2 = Ok tt ∧
    sessionStorage r.1 =
      <["oauth_state" := state]> (<["code_verifier" := verifier]> (sessionStorage Visit.fresh)) ∧
    events r.1 = events Visit.fresh ++
      [LocationHref (endpoint Scenario.authService "auth")
         (authorization_query Scenario.authService state challenge)] ∧
    requests r.1 = requests Visit.fresh.
Proof.
  apply (initiateLogin_redirects Scenario.offline Visit.crypto Scenario.authService Visit.fresh
           (λ i, default Byte.x00 (Byte.of_nat (37 * i + 5)))
           (λ i, default Byte.x00 (Byte.of_nat (37 * i + 5)))).
  - reflexivity.
  - reflexivity.
  - intros data. eexists. reflexivity.
Defined.



Lemma nonempty_length (s : string) (n : nat) : String.length s = S n → s ≠ "".
Proof. by intros Hlen ->. Qed.

(** X6: a login and its callback fit together. After [initiateLogin], when
    the provider redirects back with a code and the state it was sent,
    [handleCallback] passes the state check and submits that code with the
    verifier whose challenge went into the authorization request. *)
Theorem login_then_callback (net : Network) (crypto : Crypto) (this : AuthService)
    (w : World) (rv rs : nat → byte) (code : string) (query : list (string * string)) :
  getRandomValues crypto 128%nat = Ok rv →
  getRandomValues crypto 32%nat = Ok rs →
  (∀ data, ∃ bytes, digest crypto data = Ok bytes) →
  code ≠ "" →
  let w1 := (run net (initiateLogin crypto this) w).1 in
  truthy (get query "error") = false →
  get query "code" = Some code →
  get query "state" = sessionStorage w1 !! "oauth_state" →
  ∃ verifier state challenge,
    generateCodeChallenge (digest crypto) verifier = Ok challenge ∧
    last (events w1) =
      Some (LocationHref (endpoint this "auth") (authorization_query this state challenge)) ∧
    requests (start (handleCallback this) (with_search query w1)).1 =
      requests w ++ [exchange_request this code verifier].
Proof.
  intros Hrv Hrs Hdigest Hcode w1 Herror Hqcode Hqstate.
  destruct (generators_deliver crypto rv rs Hrv Hrs Hdigest)
    as (verifier & state & challenge & Hv & Hs & Hc & Hvlen & Hslen).
  exists verifier, state, challenge. split; [done|].
  assert (w1 = emit (LocationHref (endpoint this "auth")
                       (authorization_query this state challenge))
                 (with_storage (λ m, <["oauth_state" := state]> (<["code_verifier" := verifier]> m)) w))
    as Hw1.
  { unfold w1. by rewrite (run_initiateLogin net crypto this w verifier state challenge). }
  rewrite Hw1 in Hqstate |- *. cbn in Hqstate. rewrite lookup_insert_eq in Hqstate.
  split; [cbn; by rewrite last_snoc|].
  unfold handleCallback; cbn.
  rewrite Herror, Hqcode, Hqstate, !truthy_Some
    by eauto using nonempty_length; cbn.
  rewrite lookup_insert_eq, bool_decide_eq_false_2 by (intros H; by apply H).
  cbn. rewrite lookup_insert_ne, lookup_insert_eq by done.
  rewrite truthy_Some by eauto using nonempty_length. reflexivity.
Qed.

Lemma login_then_callback_witness :
  let w1 := (run Scenario.accepting (initiateLogin Visit.crypto Scenario.authService)
               Visit.fresh).1 in
  ∃ verifier state challenge,
    generateCodeChallenge (digest Visit.crypto) verifier = Ok challenge ∧
    last (events w1) =
      Some (LocationHref (endpoint Scenario.authService "auth")
              (authorization_query Scenario.authService state challenge)) ∧
    requests (start (handleCallback Scenario.authService)
                (with_search
                   [("code", "abc");
                    ("state", "052a4f7499bee300000000000000000000000000000000000000000000000000")]
                   w1)).1 =
      requests Visit.fresh ++ [exchange_request Scenario.authService "abc" verifier].
Proof.
  apply (login_then_callback Scenario.accepting Visit.crypto Scenario.authService Visit.fresh
           (λ i, default Byte.x00 (Byte.of_nat (37 * i + 5)))
           (λ i, default Byte.x00 (Byte.of_nat (37 * i + 5))) "abc").
  - reflexivity.
  - reflexivity.
  - intros data. eexists. reflexivity.
  - discriminate.
  - reflexivity.
  - reflexivity.
  - vm_compute. reflexivity.
Defined.

(** ** The callback, step by step *)

(** X7: a callback that carries an error parameter, or lacks the code or
    the state, makes [handleCallback] fail without touching the page: the
    store is not read and no request is issued. *)
Theorem handleCallback_rejected_early (net : Network) (this : AuthService) (w : World) :
  (truthy (get (search w) "error") = true →
   run net (handleCallback this) w =
     (w, Err ("Authentication failed: " +:+ text (get (search w) "error") +:+
              (if truthy (get (search w) "error_description")
               then " - " +:+ text (get (search w) "error_description") else ""))))
  ∧
  (truthy (get (search w) "error") = false →
   truthy (get (search w) "code") = false ∨ truthy (get (search w) "state") = false →
   run net (handleCallback this) w =
     (w, Err "Missing authorization code or state parameter")).
Proof.
  split.
  - intros Herror. unfold handleCallback; cbn. by rewrite Herror.
  - intros Herror [Hmissing | Hmissing]; unfold handleCallback; cbn;
      rewrite Herror, Hmissing; [done|]. by rewrite orb_true_r.
Qed.

Lemma handleCallback_rejected_early_witness :
  run Scenario.accepting (handleCallback Scenario.authService) Scenario.denied =
    (Scenario.denied, Err "Authentication failed: access_denied")
  ∧
  run Scenario.accepting (handleCallback Scenario.authService)
    (with_search [("code", ""); ("state", "xyz")] Scenario.redirected) =
    (with_search [("code", ""); ("state", "xyz")] Scenario.redirected,
     Err "Missing authorization code or state parameter").
Proof.
  split.
  - apply (handleCallback_rejected_early Scenario.accepting Scenario.authService Scenario.denied).
    reflexivity.
  - apply (handleCallback_rejected_early Scenario.accepting Scenario.authService
             (with_search [("code", ""); ("state", "xyz")] Scenario.redirected)).
    + reflexivity.
    + left. reflexivity.
Defined.

(** X8: a callback that passes the state check on a page whose store holds
    no verifier fails with the missing-verifier error, and the code is not
    sent. *)
Theorem handleCallback_without_verifier (net : Network) (this : AuthService) (w : World)
    (code state : string) :
  truthy (get (search w) "error") = false →
  get (search w) "code" = Some code → code ≠ "" →
  get (search w) "state" = Some state → state ≠ "" →
  sessionStorage w !! "oauth_state" = Some state →
  truthy (sessionStorage w !! "code_verifier") = false →
  run net (handleCallback this) w = (w, Err "Code verifier not found").
Proof.
  intros Herror Hcode Hcode' Hstate Hstate' Hstored Hverifier.
  unfold handleCallback; cbn.
  rewrite Herror, Hcode, Hstate, !truthy_Some by done; cbn.
  rewrite Hstored, bool_decide_eq_false_2 by (intros H; by apply H).
  cbn. by rewrite Hverifier.
Qed.

Lemma handleCallback_without_verifier_witness :
  run Scenario.accepting (handleCallback Scenario.authService)
    (with_storage (delete "code_verifier") Scenario.redirected) =
    (with_storage (delete "code_verifier") Scenario.redirected, Err "Code verifier not found").
Proof.
  apply (handleCallback_without_verifier _ _ _ "abc" "xyz"); vm_compute; congruence.
Defined.

(** X9: the successful callback. When the provider accepts the exchange
    and delivers the profile, [handleCallback] returns both, has issued
    exactly the exchange request and the profile request carrying the new
    access token, has removed the verifier and the state, stored the
    tokens, and dropped the query from the location. *)
Theorem handleCallback_success (net : Network) (this : AuthService) (w : World)
    (code state verifier st1 st2 : string) (tokens : TokenResponse) (userInfo : UserInfo) :
  truthy (get (search w) "error") = false →
  get (search w) "code" = Some code → code ≠ "" →
  get (search w) "state" = Some state → state ≠ "" →
  sessionStorage w !! "oauth_state" = Some state →
  sessionStorage w !! "code_verifier" = Some verifier → verifier ≠ "" →
  let exchange := exchange_request this code verifier in
  let profile := userinfo_request this (access_token tokens) in
  token_endpoint net (requests w ++ [exchange]) exchange = Resolved (RespOk st1 (Ok tokens)) →
  userinfo_endpoint net ((requests w ++ [exchange]) ++ [profile]) profile
    = Resolved (RespOk st2 (Ok userInfo)) →
  let r := run net (handleCallback this) w in
  r.2 = Ok (tokens, userInfo) ∧
  requests r.1 = (requests w ++ [exchange]) ++ [profile] ∧
  sessionStorage r.1 =
    stored tokens (now r.1) (delete "oauth_state" (delete "code_verifier" (sessionStorage w))) ∧
  search r.1 = [] ∧
  events r.1 = events w.
Proof.
  intros Herror Hcode Hcode' Hstate Hstate' Hstored Hverifier Hverifier'
    exchange profile Hexchange Hprofile.
  unfold exchange, profile, exchange_request, userinfo_request in *.
  unfold handleCallback; cbn.
  rewrite Herror, Hcode, Hstate, !truthy_Some by done; cbn.
  rewrite Hstored, bool_decide_eq_false_2 by (intros H; by apply H).
  cbn. rewrite Hverifier, truthy_Some by done; cbn.
  rewrite Hexchange; cbn. rewrite Hprofile; cbn.
  unfold stored. by destruct (truthy (id_token tokens)).
Qed.

Lemma handleCallback_success_witness :
  let r := run Scenario.accepting (handleCallback Scenario.authService) Scenario.redirected in
  r.2 = Ok (Scenario.tokens, Scenario.user) ∧
  requests r.1 =
    (requests Scenario.redirected ++ [exchange_request Scenario.authService "abc" "ver"])
    ++ [userinfo_request Scenario.authService "at-1"] ∧
  sessionStorage r.1 =
    stored Scenario.tokens (now r.1)
      (delete "oauth_state" (delete "code_verifier" (sessionStorage Scenario.redirected))) ∧
  search r.1 = [] ∧
  events r.1 = events Scenario.redirected.
Proof.
  apply (handleCallback_success Scenario.accepting Scenario.authService Scenario.redirected
           "abc" "xyz" "ver" "OK" "OK" Scenario.tokens Scenario.user);
    first [reflexivity | discriminate].
Defined.

(** A successful [handleCallback] leaves no query in the location. *)
Lemma handleCallback_ok_search (net : Network) (this : AuthService) (w : World) :
  match run net (handleCallback this) w with
  | (w', Ok _) => search w' = []
  | (_, Err _) => True
  end.
Proof.
  unfold handleCallback.
  rewrite run_mbind, run_perform; cbn [exec fst snd].
  destruct (truthy (get (search w) "error")); [done|].
  destruct (negb _ || negb _); [done|].
  rewrite run_mbind, run_perform; cbn [exec fst snd].
  destruct (bool_decide _); [done|].
  rewrite run_mbind.
  destruct (run net (exchangeCodeForTokens _ _) w) as [w1 [tokens | e]]; [|done].
  rewrite run_mbind.
  destruct (run net (getUserInfo _ _) w1) as [w2 [userInfo | e]]; [|done].
  cbn. by destruct (truthy (id_token tokens)).
Qed.

(** X10: an authorization code is not replayed by a second call. After a
    [handleCallback] that returned, calling it again fails for lack of a
    code, without touching the page or issuing a request. *)
Theorem handleCallback_again_after_success (net : Network) (this : AuthService) (w : World)
    (result : TokenResponse * UserInfo) :
  (run net (handleCallback this) w).2 = Ok result →
  let w' := (run net (handleCallback this) w).1 in
  run net (handleCallback this) w' =
    (w', Err "Missing authorization code or state parameter").
Proof.
  intros Hok w'. pose proof (handleCallback_ok_search net this w) as Hsearch.
  destruct (run net (handleCallback this) w) as [w1 r] eqn:Hrun; cbn in Hok; subst r.
  subst w'; cbn. unfold handleCallback; cbn. by rewrite Hsearch.
Qed.

Lemma handleCallback_again_after_success_witness :
  let w' := (run Scenario.accepting (handleCallback Scenario.authService)
               Scenario.redirected).1 in
  run Scenario.accepting (handleCallback Scenario.authService) w' =
    (w', Err "Missing authorization code or state parameter").
Proof.
  apply (handleCallback_again_after_success _ _ _ (Scenario.tokens, Scenario.user)).
  reflexivity.
Defined.

(** ** Logging out *)

(** X11: [logout] revokes only what is there and always redirects. It
    issues the revoke request exactly when a refresh token is stored, and
    ends by sending the browser to the logout endpoint, with the stored ID
    token as hint when there is one and the origin as return address. *)
Theorem logout_redirects (net : Network) (this : AuthService) (w : World) :
  let w' := (run net (logout this) w).1 in
  let refreshToken := sessionStorage w !! "refresh_token" in
  let idToken := sessionStorage w !! "id_token" in
  requests w' =
    requests w ++ (if truthy refreshToken then [revoke_request this (text refreshToken)] else []) ∧
  last (events w') =
    Some (LocationHref (endpoint this "logout")
            ((if truthy idToken then [("id_token_hint", text idToken)] else [])
             ++ [("post_logout_redirect_uri", origin w)])).
Proof.
  unfold logout, revoke_request. split_run;
    rewrite ?app_nil_r; split; try done; by rewrite last_snoc.
Qed.

(** ** Tokens in the store *)

(** X12: storing and expiry fit together. After [storeTokens] at instant
    [T] of a token set whose expiry instant [T + 1000 * expires_in] is a
    time value, [isTokenExpired] at instant [t] is true exactly when [t]
    exceeds that instant less 30000; so such a token set that lives less
    than 30 seconds counts as expired from the start. *)
Theorem storeTokens_then_isTokenExpired (net : Network) (tokens : TokenResponse)
    (w : World) (t : Z) :
  time_value (now w + expires_in tokens * 1000) →
  let w' := (run net (storeTokens tokens) w).1 in
  (run net isTokenExpired (with_now t w')).2
    = Ok (now w + expires_in tokens * 1000 - 30000 <? t)
  ∧ (expires_in tokens < 30 → (run net isTokenExpired w').2 = Ok true).
Proof.
  intros _ w'. pose proof (storeTokens_expiry net tokens w) as He. fold w' in He.
  split.
  - by rewrite (isTokenExpired_stored net _ (now w + expires_in tokens * 1000)).
  - intros Hshort.
    rewrite (isTokenExpired_stored net _ (now w + expires_in tokens * 1000)) by done.
    cbn. do 2 f_equal. unfold w'. rewrite run_storeTokens. cbn. lia.
Qed.

Lemma storeTokens_then_isTokenExpired_witness :
  (let w' := (run Scenario.offline (storeTokens Scenario.tokens) Scenario.redirected).1 in
   (run Scenario.offline isTokenExpired (with_now 1700000270001 w')).2 = Ok true)
  ∧
  (let w' := (run Scenario.offline (storeTokens short_lived) Scenario.redirected).1 in
   (run Scenario.offline isTokenExpired w').2 = Ok true).
Proof.
  split.
  - apply (storeTokens_then_isTokenExpired Scenario.offline Scenario.tokens Scenario.redirected
             1700000270001).
    unfold time_value. cbn. lia.
  - apply (storeTokens_then_isTokenExpired Scenario.offline short_lived Scenario.redirected 0).
    + unfold time_value. cbn. lia.
    + cbn. lia.
Defined.

(** An expiry entry that is not a number never counts as expired. *)
Example isTokenExpired_not_a_number :
  (run Scenario.offline isTokenExpired
     (with_storage (insert "token_expires_at" "soon") Scenario.logged_in)).2 = Ok false.
Proof. reflexivity. Qed.

(** X13: a successful refresh. When the provider accepts the refresh
    request, [refreshToken] returns the new token set and stores it over
    the old one, having issued that one request; an ID token stays as it
    was unless the answer brings a new one. *)
Theorem refreshToken_success (net : Network) (this : AuthService) (w : World)
    (rt st : string) (tokens : TokenResponse) :
  sessionStorage w !! "refresh_token" = Some rt → rt ≠ "" →
  token_endpoint net (requests w ++ [refresh_request this rt]) (refresh_request this rt)
    = Resolved (RespOk st (Ok tokens)) →
  let r := run net (refreshToken this) w in
  r.2 = Ok tokens ∧
  requests r.1 = requests w ++ [refresh_request this rt] ∧
  sessionStorage r.1 !! "access_token" = Some (access_token tokens) ∧
  sessionStorage r.1 !! "refresh_token" = Some (refresh_token tokens) ∧
  sessionStorage r.1 !! "token_expires_at"
    = Some (Number.toString (now r.1 + expires_in tokens * 1000)) ∧
  sessionStorage r.1 !! "id_token"
    = (if truthy (id_token tokens) then id_token tokens else sessionStorage w !! "id_token").
Proof.
  intros Hrt Hne Hanswer. unfold refresh_request in *.
  unfold refreshToken; cbn.
  rewrite Hrt, truthy_Some by done; cbn. rewrite Hanswer; cbn.
  destruct (id_token tokens) as [idToken|] eqn:Hid; cbn;
    [destruct (String.eqb idToken ""); cbn|]; repeat split; by simplify_map_eq.
Qed.

Lemma refreshToken_success_witness :
  let r := run Scenario.accepting (refreshToken Scenario.authService) Scenario.logged_in in
  r.2 = Ok Scenario.tokens ∧
  requests r.1 = requests Scenario.logged_in ++ [refresh_request Scenario.authService "rt-1"] ∧
  sessionStorage r.1 !! "access_token" = Some (access_token Scenario.tokens) ∧
  sessionStorage r.1 !! "refresh_token" = Some (refresh_token Scenario.tokens) ∧
  sessionStorage r.1 !! "token_expires_at"
    = Some (Number.toString (now r.1 + expires_in Scenario.tokens * 1000)) ∧
  sessionStorage r.1 !! "id_token"
    = (if truthy (id_token Scenario.tokens) then id_token Scenario.tokens
       else sessionStorage Scenario.logged_in !! "id_token").
Proof.
  apply (refreshToken_success Scenario.accepting Scenario.authService Scenario.logged_in
           "rt-1" "OK" Scenario.tokens); [reflexivity | discriminate | reflexivity].
Defined.

(** ** Validating the session *)

Lemma length_issue (req : Request) (w : World) :
  length (requests (issue req w)) = S (length (requests w)).
Proof. cbn. rewrite length_app. cbn. lia. Qed.

(** X14: [validateToken] always answers: it never throws, it answers false
    without any request when no access token is stored, and it issues at
    most two requests (the profile request and one refresh, never
    retried). *)
Theorem validateToken_answers (net : Network) (this : AuthService) (w : World) :
  (∃ valid, (run net (validateToken this) w).2 = Ok valid)
  ∧ (truthy (sessionStorage w !! "access_token") = false →
     run net (validateToken this) w = (w, Ok false))
  ∧ (length (requests (run net (validateToken this) w).1) ≤ length (requests w) + 2)%nat.
Proof.
  unfold validateToken, getUserInfo, refreshToken, getStoredRefreshToken, getStoredAccessToken.
  repeat split.
  - split_run; eauto.
  - intros Hat; cbn. by rewrite Hat.
  - split_run; rewrite ?length_app; cbn; lia.
Qed.

Lemma validateToken_answers_witness :
  (∃ valid, (run Scenario.refusing (validateToken Scenario.authService)
               Scenario.logged_in).2 = Ok valid)
  ∧ run Scenario.refusing (validateToken Scenario.authService) Scenario.redirected
      = (Scenario.redirected, Ok false)
  ∧ (length (requests (run Scenario.refusing (validateToken Scenario.authService)
                         Scenario.logged_in).1)
     ≤ length (requests Scenario.logged_in) + 2)%nat.
Proof.
  pose proof (validateToken_answers Scenario.refusing Scenario.authService Scenario.logged_in)
    as (Hanswer & _ & Hbound).
  pose proof (validateToken_answers Scenario.refusing Scenario.authService Scenario.redirected)
    as (_ & Hnone & _).
  split; [exact Hanswer|]. split; [|exact Hbound].
  apply Hnone. reflexivity.
Defined.

(** X15: a session that cannot be validated is forgotten. When the profile
    request fails and the refresh fails too, [validateToken] answers false
    and the store holds no access token, no refresh token and no expiry
    instant. *)
Theorem validateToken_clears (net : Network) (this : AuthService) (w : World)
    (accessToken : string) :
  sessionStorage w !! "access_token" = Some accessToken → accessToken ≠ "" →
  let '(w1, profile) := run net (getUserInfo this accessToken) w in
  (∃ e, profile = Err e) →
  (∃ e, (run net (refreshToken this) w1).2 = Err e) →
  let r := run net (validateToken this) w in
  r.2 = Ok false ∧
  sessionStorage r.1 !! "access_token" = None ∧
  sessionStorage r.1 !! "refresh_token" = None ∧
  sessionStorage r.1 !! "token_expires_at" = None.
Proof.
  intros Hat Hne.
  destruct (run net (getUserInfo this accessToken) w) as [w1 profile] eqn:Hprofile.
  intros [e ->] [e' Hrefresh].
  unfold validateToken, getStoredAccessToken.
  rewrite run_mbind, run_perform; cbn [exec fst snd].
  rewrite Hat, truthy_Some by done; cbn [negb text].
  rewrite run_tryCatch, run_mbind, Hprofile, run_tryCatch, run_mbind.
  destruct (run net (refreshToken this) w1) as [w2 [tokens | e'']]; cbn in Hrefresh; [done|].
  cbn. repeat split; by simplify_map_eq.
Qed.

Lemma validateToken_clears_witness :
  let r := run Scenario.refusing (validateToken Scenario.authService) Scenario.logged_in in
  r.2 = Ok false ∧
  sessionStorage r.1 !! "access_token" = None ∧
  sessionStorage r.1 !! "refresh_token" = None ∧
  sessionStorage r.1 !! "token_expires_at" = None.
Proof.
  pose proof (validateToken_clears Scenario.refusing Scenario.authService Scenario.logged_in
                "at-1") as H.
  apply H; [reflexivity | discriminate | by eexists | by eexists].
Defined.

(** ** Reading the current user *)

(** X16: with a stored token that has not expired, [getCurrentUser] issues
    one request, the profile request carrying that token, leaves the store
    alone, and returns the profile exactly when the provider delivers
    one. *)
Theorem getCurrentUser_fresh (net : Network) (this : AuthService) (w : World)
    (accessToken : string) :
  sessionStorage w !! "access_token" = Some accessToken → accessToken ≠ "" →
  (run net isTokenExpired w).2 = Ok false →
  let profile := userinfo_request this accessToken in
  let r := run net (getCurrentUser this) w in
  requests r.1 = requests w ++ [profile] ∧
  sessionStorage r.1 = sessionStorage w ∧
  r.2 = Ok (match userinfo_endpoint net (requests w ++ [profile]) profile with
            | Resolved (RespOk _ (Ok userInfo)) => Some userInfo
            | _ => None
            end).
Proof.
  intros Hat Hne Hfresh profile. unfold profile, userinfo_request.
  unfold getCurrentUser. cbn zeta. rewrite run_tryCatch.
  unfold getStoredAccessToken. rewrite run_mbind, run_perform; cbn [exec fst snd].
  rewrite Hat, truthy_Some by done; cbn [negb].
  rewrite run_mbind.
  pose proof (isTokenExpired_world net w) as Hw.
  destruct (run net isTokenExpired w) as [w1 expired]; cbn in Hw, Hfresh; subst w1 expired.
  cbn. rewrite Hat, truthy_Some by done; cbn.
  destruct (userinfo_endpoint net _ _) as [? | [? [? | ?] | ? ?]]; by cbn.
Qed.

Lemma getCurrentUser_fresh_witness :
  let profile := userinfo_request Scenario.authService "at-1" in
  let r := run Scenario.accepting (getCurrentUser Scenario.authService) Scenario.logged_in in
  requests r.1 = requests Scenario.logged_in ++ [profile] ∧
  sessionStorage r.1 = sessionStorage Scenario.logged_in ∧
  r.2 = Ok (match userinfo_endpoint Scenario.accepting
                    (requests Scenario.logged_in ++ [profile]) profile with
            | Resolved (RespOk _ (Ok userInfo)) => Some userInfo
            | _ => None
            end).
Proof.
  apply (getCurrentUser_fresh Scenario.accepting Scenario.authService Scenario.logged_in "at-1");
    [reflexivity | discriminate | reflexivity].
Defined.

(** X17: after a refresh the profile is asked for with the new token. With
    an expired token and an accepted refresh, [getCurrentUser] issues the
    refresh request and then the profile request carrying the access token
    just received. *)
Theorem getCurrentUser_refreshes (net : Network) (this : AuthService) (w : World)
    (accessToken rt st : string) (tokens : TokenResponse) :
  sessionStorage w !! "access_token" = Some accessToken → accessToken ≠ "" →
  (run net isTokenExpired w).2 = Ok true →
  sessionStorage w !! "refresh_token" = Some rt → rt ≠ "" →
  token_endpoint net (requests w ++ [refresh_request this rt]) (refresh_request this rt)
    = Resolved (RespOk st (Ok tokens)) →
  access_token tokens ≠ "" →
  requests (run net (getCurrentUser this) w).1 =
    (requests w ++ [refresh_request this rt])
    ++ [userinfo_request this (access_token tokens)].
Proof.
  intros Hat Hne Hexpired Hrt Hrt' Hanswer Hnew.
  unfold refresh_request, userinfo_request in *.
  unfold getCurrentUser. rewrite run_tryCatch.
  unfold getStoredAccessToken. rewrite run_mbind, run_perform; cbn [exec fst snd].
  rewrite Hat, truthy_Some by done; cbn [negb].
  rewrite run_mbind.
  pose proof (isTokenExpired_world net w) as Hw.
  destruct (run net isTokenExpired w) as [w1 expired]; cbn in Hw, Hexpired; subst w1 expired.
  unfold refreshToken; cbn.
  rewrite Hrt, truthy_Some by done; cbn. rewrite Hanswer; cbn.
  destruct (truthy (id_token tokens)); cbn;
    (rewrite ?lookup_insert_ne, lookup_insert_eq by done);
    rewrite truthy_Some by done; cbn;
    destruct (userinfo_endpoint net _ _) as [? | [? [? | ?] | ? ?]]; by cbn.
Qed.

Lemma getCurrentUser_refreshes_witness :
  requests (run Scenario.accepting (getCurrentUser Scenario.authService)
              (with_now 1700000400000 Scenario.logged_in)).1 =
    (requests (with_now 1700000400000 Scenario.logged_in)
     ++ [refresh_request Scenario.authService "rt-1"])
    ++ [userinfo_request Scenario.authService (access_token Scenario.tokens)].
Proof.
  apply (getCurrentUser_refreshes Scenario.accepting Scenario.authService
           (with_now 1700000400000 Scenario.logged_in) "at-1" "rt-1" "OK" Scenario.tokens);
    first [reflexivity | discriminate].
Defined.

(** ** The callback page *)

Lemma run_tryFinally (net : Network) {A} (t : Task A) (cleanup : Task unit) (w : World) :
  run net (tryFinally t cleanup) w =
  match run net t w with
  | (w', r) =>
      match run net cleanup w' with
      | (w'', Ok _) => (w'', r)
      | (w'', Err e) => (w'', Err e)
      end
  end.
Proof.
  revert w; induction t as [a | e | X o k IH | X c k IH]; intros w; cbn.
  - rewrite run_bind. by destruct (run net cleanup w) as [w' [[] | e]].
  - rewrite run_bind. by destruct (run net cleanup w) as [w' [[] | e']].
  - destruct (exec o w) as [w' x]. apply IH.
  - apply IH.
Qed.

(** X18: the callback page always settles. The function started by the
    effect of [Callback] never throws; after [authService.handleCallback]
    it navigates to the dashboard, or shows the message of the failure and
    schedules the return to the login page after three seconds; either way
    its last act is to end the processing state. *)
Theorem Callback_settles (net : Network) (authService : AuthService) (w : World) :
  let '(w1, outcome) := run net (handleCallback authService) (emit (SetIsProcessing true) w) in
  run net (Callback.handleCallback authService) w =
    (emit (SetIsProcessing false)
       match outcome with
       | Ok _ => emit (Navigate "/dashboard") w1
       | Err message => emit (NavigateAfter 3000 "/login") (emit (SetError message) w1)
       end,
     Ok tt).
Proof.
  unfold Callback.handleCallback.
  rewrite run_tryFinally, run_tryCatch, run_mbind, run_perform; cbn [exec fst snd].
  rewrite run_mbind.
  by destruct (run net (handleCallback authService) _) as [w1 [result | message]].
Qed.

Example Callback_shows_failure :
  events (run Scenario.refusing (Callback.handleCallback Scenario.authService)
            Scenario.redirected).1 =
    [SetIsProcessing true;
     ConsoleError "Token exchange error:" "Token exchange failed: Code not valid";
     SetError "Failed to exchange authorization code for tokens";
     NavigateAfter 3000 "/login";
     SetIsProcessing false].
Proof. reflexivity. Qed.

(** ** The provider of the authentication state *)

Lemma run_call (net : Network) {A} (t : Task A) (st : AuthContext.State) (w : World) :
  run net (AuthContext.call t st) w =
  match run net t w with
  | (w', Ok a) => (w', Ok (st, Ok a))
  | (w', Err e) => (w', Ok (st, Err e))
  end.
Proof.
  unfold AuthContext.call. rewrite run_tryCatch, run_mbind.
  by destruct (run net t w) as [w' [a | e]].
Qed.

Lemma run_then (net : Network) {A B} (h : AuthContext.Handler A)
    (f : A → AuthContext.Handler B) (st : AuthContext.State) (w : World) :
  run net (AuthContext.then_ h f st) w =
  match run net (h st) w with
  | (w', Ok (st', Ok a)) => run net (f a st') w'
  | (w', Ok (st', Err e)) => (w', Ok (st', Err e))
  | (w', Err e) => (w', Err e)
  end.
Proof.
  unfold AuthContext.then_. rewrite run_mbind.
  by destruct (run net (h st) w) as [w' [[st' [a | e]] | e]].
Qed.

Lemma run_try_catch (net : Network) {A} (h : AuthContext.Handler A)
    (handler : string → AuthContext.Handler A) (st : AuthContext.State) (w : World) :
  run net (AuthContext.try_catch h handler st) w =
  match run net (h st) w with
  | (w', Ok (st', Ok a)) => (w', Ok (st', Ok a))
  | (w', Ok (st', Err e)) => run net (handler e st') w'
  | (w', Err e) => (w', Err e)
  end.
Proof.
  unfold AuthContext.try_catch. rewrite run_mbind.
  by destruct (run net (h st) w) as [w' [[st' [a | e]] | e]].
Qed.

Lemma validateToken_total (net : Network) (this : AuthService) (w : World) :
  ∃ valid, (run net (validateToken this) w).2 = Ok valid.
Proof.
  unfold validateToken, getUserInfo, refreshToken, getStoredRefreshToken, getStoredAccessToken.
  split_run; eauto.
Qed.

Lemma getCurrentUser_total (net : Network) (this : AuthService) (w : World) :
  ∃ current, (run net (getCurrentUser this) w).2 = Ok current.
Proof.
  unfold getCurrentUser. rewrite run_tryCatch.
  destruct (run net _ w) as [w' [current | e]]; cbn; eauto.
Qed.

(** X19: the check on mount always settles. [checkAuthStatus] never throws
    and ends with the loading flag off; the page counts as authenticated
    exactly when [validateToken] answered true, with the user that
    [getCurrentUser] then returned (possibly none), and otherwise has no
    user. *)
Theorem checkAuthStatus_settles (net : Network) (authService : AuthService)
    (st : AuthContext.State) (w : World) :
  let '(w1, valid) := run net (validateToken authService) w in
  let '(w2, current) := run net (getCurrentUser authService) w1 in
  run net (AuthContext.checkAuthStatus authService st) w =
    match valid with
    | Ok true =>
        (w2, Ok ({| AuthContext.isAuthenticated := true; AuthContext.isLoading := false;
                    AuthContext.user := match current with Ok u => u | Err _ => None end |},
                 Ok tt))
    | _ =>
        (w1, Ok ({| AuthContext.isAuthenticated := false; AuthContext.isLoading := false;
                    AuthContext.user := None |},
                 Ok tt))
    end.
Proof.
  pose proof (validateToken_total net authService w) as [valid Hvalid].
  destruct (run net (validateToken authService) w) as [w1 r1] eqn:Hrun1.
  cbn in Hvalid; subst r1.
  pose proof (getCurrentUser_total net authService w1) as [current Hcurrent].
  destruct (run net (getCurrentUser authService) w1) as [w2 r2] eqn:Hrun2.
  cbn in Hcurrent; subst r2.
  unfold AuthContext.checkAuthStatus, AuthContext.try_finally.
  rewrite run_mbind, run_try_catch, run_then; cbn [AuthContext.setIsLoading run].
  rewrite run_then, run_call, Hrun1.
  destruct valid.
  - rewrite run_then, run_call, Hrun2. by cbn.
  - by cbn.
Qed.

(** X20: [refreshUser] keeps the two flags of the provider in step. It
    never throws, leaves the loading flag alone, sets the user to what
    [getCurrentUser] returned, and counts the page as authenticated exactly
    when there is a user. *)
Theorem refreshUser_consistent (net : Network) (authService : AuthService)
    (st : AuthContext.State) (w : World) :
  ∃ st',
    run net (AuthContext.refreshUser authService st) w
      = ((run net (getCurrentUser authService) w).1, Ok (st', Ok tt)) ∧
    (run net (getCurrentUser authService) w).2 = Ok (AuthContext.user st') ∧
    AuthContext.isAuthenticated st' = bool_decide (is_Some (AuthContext.user st')) ∧
    AuthContext.isLoading st' = AuthContext.isLoading st.
Proof.
  pose proof (getCurrentUser_total net authService w) as [current Hcurrent].
  destruct (run net (getCurrentUser authService) w) as [w1 r] eqn:Hrun.
  cbn in Hcurrent; subst r.
  unfold AuthContext.refreshUser.
  rewrite run_try_catch, run_then, run_call, Hrun.
  destruct current as [userInfo|]; cbn; eexists; repeat split; done.
Qed.

(** X21: logging out always ends logged out. [logout] of the provider
    never throws, whatever the revoke request does, and ends with no user
    and the page not authenticated, after the service has cleared the
    tokens and redirected. *)
Theorem AuthContext_logout_settles (net : Network) (authService : AuthService)
    (st : AuthContext.State) (w : World) :
  run net (AuthContext.logout authService st) w =
    ((run net (logout authService) w).1,
     Ok ({| AuthContext.isAuthenticated := false;
            AuthContext.isLoading := AuthContext.isLoading st;
            AuthContext.user := None |},
         Ok tt)).
Proof.
  pose proof (proj1 (logout_storage net authService w)) as Hok.
  destruct (run net (logout authService) w) as [w1 r] eqn:Hrun. cbn in Hok; subst r.
  unfold AuthContext.logout.
  rewrite run_try_catch, run_then, run_call, Hrun. by cbn.
Qed.

(** X22: a visitor without a session is sent to the provider. On a page
    whose store holds no access token and whose cryptography delivers, the
    check on mount ends unauthenticated without any request, and the effect
    of [ProtectedRoute] then completes a login: the verifier and the state
    are persisted and the browser is redirected to the authorization
    endpoint. *)
Theorem visitor_is_sent_to_login (net : Network) (crypto : Crypto)
    (authService : AuthService) (w : World) (rv rs : nat → byte) :
  truthy (sessionStorage w !! "access_token") = false →
  getRandomValues crypto 128%nat = Ok rv →
  getRandomValues crypto 32%nat = Ok rs →
  (∀ data, ∃ bytes, digest crypto data = Ok bytes) →
  ∃ st verifier state challenge,
    run net (AuthContext.checkAuthStatus authService AuthContext.initial) w = (w, Ok (st, Ok tt)) ∧
    AuthContext.isAuthenticated st = false ∧ AuthContext.isLoading st = false ∧
    generateCodeChallenge (digest crypto) verifier = Ok challenge ∧
    ProtectedRoute_effect crypto authService st w =
      (emit (LocationHref (endpoint authService "auth")
               (authorization_query authService state challenge))
         (with_storage (λ m, <["oauth_state" := state]> (<["code_verifier" := verifier]> m)) w),
       Finished (Ok (st, Ok tt))).
Proof.
  intros Hat Hrv Hrs Hdigest.
  destruct (generators_deliver crypto rv rs Hrv Hrs Hdigest)
    as (verifier & state & challenge & Hv & Hs & Hc & _).
  exists {| AuthContext.isAuthenticated := false; AuthContext.isLoading := false;
            AuthContext.user := None |}, verifier, state, challenge.
  split; [|split; [done|split; [done|split; [done|]]]].
  - unfold AuthContext.checkAuthStatus, AuthContext.try_finally.
    rewrite run_mbind, run_try_catch, run_then; cbn [AuthContext.setIsLoading run].
    rewrite run_then, run_call.
    unfold validateToken, getStoredAccessToken; cbn. rewrite Hat. reflexivity.
  - unfold ProtectedRoute_effect;
      cbn [AuthContext.isLoading AuthContext.isAuthenticated negb andb].
    unfold AuthContext.login, AuthContext.try_catch, AuthContext.call, initiateLogin.
    rewrite Hv. cbn [settle mbind Task_bind bind tryCatch].
    rewrite Hs. cbn [settle mbind Task_bind bind tryCatch].
    rewrite Hc. reflexivity.
Qed.

Lemma visitor_is_sent_to_login_witness :
  ∃ st verifier state challenge,
    run Scenario.offline (AuthContext.checkAuthStatus Scenario.authService AuthContext.initial)
      Visit.fresh = (Visit.fresh, Ok (st, Ok tt)) ∧
    AuthContext.isAuthenticated st = false ∧ AuthContext.isLoading st = false ∧
    generateCodeChallenge (digest Visit.crypto) verifier = Ok challenge ∧
    ProtectedRoute_effect Visit.crypto Scenario.authService st Visit.fresh =
      (emit (LocationHref (endpoint Scenario.authService "auth")
               (authorization_query Scenario.authService state challenge))
         (with_storage (λ m, <["oauth_state" := state]> (<["code_verifier" := verifier]> m))
            Visit.fresh),
       Finished (Ok (st, Ok tt))).
Proof.
  apply (visitor_is_sent_to_login Scenario.offline Visit.crypto Scenario.authService Visit.fresh
           (λ i, default Byte.x00 (Byte.of_nat (37 * i + 5)))
           (λ i, default Byte.x00 (Byte.of_nat (37 * i + 5)))).
  - reflexivity.
  - reflexivity.
  - reflexivity.
  - intros data. eexists. reflexivity.
Defined.

(** The page can count as authenticated without a user: the profile
    request of [validateToken] is answered, and the one of
    [getCurrentUser] is not. *)
Example checkAuthStatus_authenticated_without_user :
  let flaky : Network :=
    {| token_endpoint := λ _ _, Rejected "Failed to fetch";
       userinfo_endpoint := λ log _,
         if (length log <=? 1)%nat then Resolved (RespOk "OK" (Ok Scenario.user))
         else Rejected "Failed to fetch";
       revoke_endpoint := λ _ _, Rejected "Failed to fetch";
       latency := λ _, 20%Z |} in
  (run flaky (AuthContext.checkAuthStatus Scenario.authService AuthContext.initial)
     Scenario.logged_in).2 =
    Ok ({| AuthContext.isAuthenticated := true; AuthContext.isLoading := false;
           AuthContext.user := None |}, Ok tt).
Proof. reflexivity. Qed.

(** ** More on the service *)

(** X23: every failure of the profile request looks the same. [getUserInfo]
    issues one request carrying the token and leaves the store alone; it
    returns the profile the provider delivers, and fails with one fixed
    message when the transport fails, the status is not a success or the
    body cannot be read. *)
Theorem getUserInfo_outcome (net : Network) (this : AuthService) (accessToken : string)
    (w : World) :
  let profile := userinfo_request this accessToken in
  let r := run net (getUserInfo this accessToken) w in
  requests r.1 = requests w ++ [profile] ∧
  sessionStorage r.1 = sessionStorage w ∧
  r.2 = match userinfo_endpoint net (requests w ++ [profile]) profile with
        | Resolved (RespOk _ (Ok userInfo)) => Ok userInfo
        | _ => Err "Failed to fetch user information"
        end.
Proof.
  unfold userinfo_request, getUserInfo; cbn.
  destruct (userinfo_endpoint net _ _) as [? | [? [? | ?] | ? ?]]; by cbn.
Qed.




(** X25: after [logout] the page has no session. Whatever the store held
    and whatever the network does, [validateToken] then answers false and
    [getCurrentUser] returns no user, neither issuing a request. *)
Theorem logout_ends_session (net : Network) (this : AuthService) (w : World) :
  let w' := (run net (logout this) w).1 in
  run net (validateToken this) w' = (w', Ok false) ∧
  run net (getCurrentUser this) w' = (w', Ok None).
Proof.
  intros w'. pose proof (proj2 (logout_storage net this w)) as Hstore. fold w' in Hstore.
  assert (sessionStorage w' !! "access_token" = None) as Hat
    by (rewrite Hstore; by simplify_map_eq).
  split.
  - unfold validateToken, getStoredAccessToken; cbn. by rewrite Hat.
  - unfold getCurrentUser, getStoredAccessToken; cbn. by rewrite Hat.
Qed.

(** ** The bias of the verifier *)

(** X26: the characters of the verifier are not drawn evenly. Of the 256
    values of a random byte, four make [generateCodeVerifier] return each
    of the first 58 characters of the character set as the verifier of
    length 1, and three each of the last 8. *)
Theorem generateCodeVerifier_bias (i : nat) (c : ascii) :
  String.get i pkce.charset = Some c →
  length (List.filter
            (λ b, is_character c
                    (pkce.generateCodeVerifier (web_getRandomValues (λ _, b)) (Some 1%nat)))
            all_bytes)
  = (if (i <? 58)%nat then 4 else 3)%nat.
Proof.
  do 66 (destruct i as [|i]; [intros [= <-]; vm_compute; reflexivity|]).
  intros H. cbn in H. discriminate H.
Qed.

Lemma generateCodeVerifier_bias_witness :
  length (List.filter
            (λ b, is_character "~"
                    (pkce.generateCodeVerifier (web_getRandomValues (λ _, b)) (Some 1%nat)))
            all_bytes)
  = 3%nat.
Proof.
  apply (generateCodeVerifier_bias 65 "~"). reflexivity.
Defined.

(** The 256 values are all there, each once. *)
Lemma all_bytes_complete (b : byte) : count_occ Byte.byte_eq_dec all_bytes b = 1%nat.
Proof. destruct b; vm_compute; reflexivity. Qed.
